(** * securedrop/crypto_util.py: identity-derived key management

    A shallow embedding of [CryptoUtil] and [clean] from
    [securedrop/crypto_util.py] (Python 2, where [str] is a byte string),
    together with the properties of the module that the specification
    states.

    Python [str] values are [string] (a list of 8-bit [ascii]); the
    dictionary [__language2words] is a [gmap string (list string)]; the
    collaborators the module consumes (scrypt, the GnuPG engine, the
    storage layer, the filesystem and the process environment) are
    interfaces whose calls are recorded, in order, in an event log. *)

From Stdlib Require Import String Ascii List ZArith Lia.
From stdpp Require Import base option gmap strings.
Import ListNotations.

Local Open Scope string_scope.

(** ** Exceptions *)

(** The exceptions that can leave the module.  [CryptoException] is the
    module's own; the others come from the collaborators it calls. *)
Inductive Exn : Type :=
| CryptoException (msg : string)
| AssertionError (msg : string)
| OSError (prog : string)
| IOError (path : string)
| PathException (path : string).

(** The outcome of a call that may raise. *)
Inductive Res (A : Type) : Type :=
| Ok (a : A)
| Raise (e : Exn).
Arguments Ok {A} a.
Arguments Raise {A} e.

(** ** Strings as Python sees them *)

(** [c in s] for a one-character [c]. *)
Fixpoint char_in (c : ascii) (s : string) : bool :=
  match s with
  | EmptyString => false
  | String d s' => if Ascii.eqb c d then true else char_in c s'
  end.

(** [name in uid] for strings: [name] occurs as a contiguous substring. *)
Fixpoint str_in (name uid : string) : bool :=
  if String.prefix name uid then true
  else match uid with
       | EmptyString => false
       | String _ uid' => str_in name uid'
       end.

(** [s.replace(' ', '')]. *)
Fixpoint remove_spaces (s : string) : string :=
  match s with
  | EmptyString => EmptyString
  | String c s' =>
      if Ascii.eqb c " "%char then remove_spaces s'
      else String c (remove_spaces s')
  end.

(** The characters of [string.whitespace]: tab, line feed, vertical tab,
    form feed, carriage return and space. *)
Definition is_whitespace (c : ascii) : bool :=
  match nat_of_ascii c with
  | 9 | 10 | 11 | 12 | 13 | 32 => true
  | _ => false
  end.

Definition has_whitespace (s : string) : bool :=
  existsb is_whitespace (list_ascii_of_string s).

(** ** The sanitizer *)

Definition DICEWARE_SAFE_CHARS : string :=
  " !#%$&)(+*-1032547698;:=?@acbedgfihkjmlonqpsrutwvyxzA" ++
  "BCDEFGHIJKLMNOPQRSTUVWXYZ".

(** The loop of [clean]: the first offending character aborts it. *)
Fixpoint all_allowed (s also : string) : bool :=
  match s with
  | EmptyString => true
  | String c s' =>
      if negb (char_in c DICEWARE_SAFE_CHARS) && negb (char_in c also)
      then false
      else all_allowed s' also
  end.

Definition clean (s also : string) : Res string :=
  if all_allowed s also then Ok s
  else Raise (CryptoException ("invalid input: " ++ s)).

(** ** Base32, as [base64.b32encode] computes it *)

Definition b32_alphabet : list ascii :=
  list_ascii_of_string "ABCDEFGHIJKLMNOPQRSTUVWXYZ234567".

(** The symbol of a 5-bit group, most significant bit first. *)
Definition b32_sym (b4 b3 b2 b1 b0 : bool) : ascii :=
  nth (16 * Nat.b2n b4 + 8 * Nat.b2n b3 + 4 * Nat.b2n b2 +
       2 * Nat.b2n b1 + Nat.b2n b0) b32_alphabet "="%char.

(** One quantum: 5 bytes (40 bits) give 8 symbols.  The constructor
    [Ascii] lists the bits of a byte least significant first. *)
Definition b32_quantum (a b c d e : ascii) : list ascii :=
  let '(Ascii a0 a1 a2 a3 a4 a5 a6 a7) := a in
  let '(Ascii b0 b1 b2 b3 b4 b5 b6 b7) := b in
  let '(Ascii c0 c1 c2 c3 c4 c5 c6 c7) := c in
  let '(Ascii d0 d1 d2 d3 d4 d5 d6 d7) := d in
  let '(Ascii e0 e1 e2 e3 e4 e5 e6 e7) := e in
  [ b32_sym a7 a6 a5 a4 a3; b32_sym a2 a1 a0 b7 b6;
    b32_sym b5 b4 b3 b2 b1; b32_sym b0 c7 c6 c5 c4;
    b32_sym c3 c2 c1 c0 d7; b32_sym d6 d5 d4 d3 d2;
    b32_sym d1 d0 e7 e6 e5; b32_sym e4 e3 e2 e1 e0 ].

Definition pad_quantum (keep : nat) (q : list ascii) : list ascii :=
  firstn keep q ++ repeat "="%char (8 - keep).

(** The last, partial quantum is filled with zero bytes and the symbols
    that carry no input bit are replaced by ["="]. *)
Fixpoint b32encode_list (s : list ascii) : list ascii :=
  match s with
  | [] => []
  | [a] => pad_quantum 2 (b32_quantum a zero zero zero zero)
  | [a; b] => pad_quantum 4 (b32_quantum a b zero zero zero)
  | [a; b; c] => pad_quantum 5 (b32_quantum a b c zero zero)
  | [a; b; c; d] => pad_quantum 7 (b32_quantum a b c d zero)
  | a :: b :: c :: d :: e :: rest =>
      b32_quantum a b c d e ++ b32encode_list rest
  end.

Definition b32encode (s : string) : string :=
  string_of_list_ascii (b32encode_list (list_ascii_of_string s)).

(** ** The collaborators *)

(** Keyword arguments of [scrypt.hash]. *)
Record ScryptParams : Type := { sp_N : Z; sp_r : Z; sp_p : Z }.

(** [scrypt.hash(password, salt, N, r, p)]: an opaque deterministic
    function. *)
Class Scrypt : Type := { scrypt_hash : string -> string -> ScryptParams -> string }.

(** An entry of [gpg.list_keys()]. *)
Record GpgKey : Type := { fingerprint : string; uids : list string }.

(** The result object of [gpg.encrypt] and [gpg.decrypt]. *)
Record Crypt : Type := { ok : bool; data : string; stderr : string }.

(** The GnuPG engine over a keyring of type [G]. *)
Class GnuPG (G : Type) : Type := {
  gpg_list_keys : G -> list GpgKey;
  (** [delete_keys(fingerprint, secret)] *)
  gpg_delete_keys : string -> bool -> G -> G;
  (** [export_keys(keyids)]; the module may pass [None] *)
  gpg_export_keys : option string -> G -> string;
  (** [gen_key(gen_key_input(key_type, key_length, passphrase,
      name_email))]: the new fingerprint and the keyring with the key *)
  gpg_gen_key : string -> Z -> string -> string -> G -> string * G;
  (** [encrypt(data, *recipients, output, always_trust, armor)] *)
  gpg_encrypt :
    string -> list string -> option string -> bool -> bool -> G -> Crypt;
  (** [decrypt(message, passphrase)] *)
  gpg_decrypt : string -> string -> G -> Crypt
}.

(** What [subprocess.check_call(['srm'])] meets. *)
Inductive SrmOutcome : Type :=
| SrmExit (code : Z)
| SrmNotInstalled.

(** Calls to the collaborators, in the order they happen. *)
Inductive Event : Type :=
| EvEnviron (name : string)
| EvSrm
| EvGpgInit (binary homedir : string)
| EvExists (path : string)
| EvOpen (path : string)
| EvVerify (path : string)
| EvScrypt (password salt : string) (params : ScryptParams)
| EvListKeys
| EvDeleteKeys (fpr : string) (secret : bool)
| EvExportKeys (fpr : option string)
| EvGenKey (key_type : string) (key_length : Z) (passphrase name : string)
| EvEncrypt (plaintext : string) (recipients : list string)
    (output : option string) (always_trust armor : bool)
| EvDecrypt (ciphertext passphrase : string).

(** ** The state the module runs in *)

Section State.
Context {G : Type}.

Record State : Type := {
  st_environ : gmap string string;     (* os.environ *)
  st_srm : SrmOutcome;
  st_files : gmap string string;       (* readable files: path, content *)
  st_verify : string -> bool;          (* current_app.storage.verify *)
  st_keyring : G;                      (* what the GnuPG engine holds *)
  st_language2words : gmap string (list string);
  st_log : list Event
}.

Definition set_keyring (k : G) (st : State) : State :=
  {| st_environ := st_environ st; st_srm := st_srm st;
     st_files := st_files st; st_verify := st_verify st;
     st_keyring := k;
     st_language2words := st_language2words st; st_log := st_log st |}.

Definition set_language2words (m : gmap string (list string))
    (st : State) : State :=
  {| st_environ := st_environ st; st_srm := st_srm st;
     st_files := st_files st; st_verify := st_verify st;
     st_keyring := st_keyring st;
     st_language2words := m; st_log := st_log st |}.

Definition add_event (e : Event) (st : State) : State :=
  {| st_environ := st_environ st; st_srm := st_srm st;
     st_files := st_files st; st_verify := st_verify st;
     st_keyring := st_keyring st;
     st_language2words := st_language2words st;
     st_log := st_log st ++ [e] |}.

(** A computation that may raise and may change the state; a raised
    exception keeps the changes made before it. *)
Definition M (A : Type) : Type := State -> Res A * State.

Definition ret {A} (a : A) : M A := fun st => (Ok a, st).
Definition raise {A} (e : Exn) : M A := fun st => (Raise e, st).
Definition bind {A B} (m : M A) (k : A -> M B) : M B :=
  fun st => match m st with
            | (Ok a, st') => k a st'
            | (Raise e, st') => (Raise e, st')
            end.
Definition lift {A} (r : Res A) : M A := fun st => (r, st).
Definition gets {A} (f : State -> A) : M A := fun st => (Ok (f st), st).
Definition modify (f : State -> State) : M unit := fun st => (Ok tt, f st).
Definition emit (e : Event) : M unit := modify (add_event e).
End State.
Arguments State G : clear implicits.
Arguments M G A : clear implicits.

Declare Scope py_scope.
Delimit Scope py_scope with py.
Notation "x <- m ;; k" := (bind m (fun x => k))
  (at level 100, m at next level, right associativity) : py_scope.
Notation "m ;; k" := (bind m (fun _ => k))
  (at level 100, right associativity) : py_scope.

(** ** Paths and files *)

(** [posixpath.join] of two components. *)
Definition path_join2 (a b : string) : string :=
  if String.prefix "/" b then b
  else if String.eqb a "" || String.eqb (substring (String.length a - 1) 1 a) "/"
       then a ++ b
       else a ++ "/" ++ b.

(** [os.path.join(a, *p)]. *)
Definition path_join (a : string) (p : list string) : string :=
  fold_left path_join2 p a.

Definition is_linebreak (c : ascii) : bool :=
  match nat_of_ascii c with
  | 10 | 11 | 12 | 28 | 29 | 30 => true
  | _ => false
  end.

(** Text mode with universal newlines: ["\r\n"] and ["\r"] are read as
    ["\n"]. *)
Fixpoint universal_newlines (s : string) : string :=
  match s with
  | EmptyString => EmptyString
  | String c s' =>
      if Ascii.eqb c (ascii_of_nat 13) then
        String (ascii_of_nat 10)
          match s' with
          | String d s'' =>
              if Ascii.eqb d (ascii_of_nat 10) then universal_newlines s''
              else universal_newlines s'
          | EmptyString => EmptyString
          end
      else String c (universal_newlines s')
  end.

(** [splitlines()]: the line breaks are dropped, and a final line break
    does not open another line. *)
Fixpoint splitlines (s : string) : list string :=
  match s with
  | EmptyString => []
  | String c s' =>
      if is_linebreak c then EmptyString :: splitlines s'
      else match splitlines s' with
           | [] => [String c EmptyString]
           | l :: ls => String c l :: ls
           end
  end.

(** ** The class [CryptoUtil] *)

(** The attributes [__init__] sets and no method changes afterwards.  The
    dictionary [__language2words], which [get_wordlist] fills, is the
    [st_language2words] of the state; the engine handle [self.gpg] is the
    [st_keyring]. *)
Record CryptoUtil : Type := {
  securedrop_root : string;
  word_list : string;
  gpg_key_length : Z;
  scrypt_params : ScryptParams;
  scrypt_id_pepper : string;
  scrypt_gpg_pepper : string;
  nouns : list string;
  adjectives : list string
}.

Definition GPG_KEY_TYPE : string := "RSA".

(** The [AssertionError] of [do_runtime_tests]. *)
Definition pepper_collision : Exn :=
  AssertionError "scrypt_id_pepper == scrypt_gpg_pepper".

(** The parameters of the test environment. *)
Definition test_scrypt_params : ScryptParams :=
  {| sp_N := 2 ^ 1; sp_r := 1; sp_p := 1 |}.
Definition DEFAULT_WORDS_IN_RANDOM_ID : Z := 8.

(** What a caller may hand to [encrypt] as [fingerprints]: a list (or
    tuple) of fingerprints, or one fingerprint that is not in a list. *)
Inductive Fingerprints : Type :=
| FprList (fprs : list string)
| FprSingle (fpr : string).

(** [isinstance(fingerprints, (list, tuple))] and the coercion after it. *)
Definition as_list (fingerprints : Fingerprints) : list string :=
  match fingerprints with
  | FprList fprs => fprs
  | FprSingle fpr => [fpr]
  end.

(** What a caller may hand to [encrypt] as [plaintext]: a stream, or a
    string that [_make_binary_stream] wraps in one. *)
Inductive Plaintext : Type :=
| PlainStream (content : string)
| PlainStr (s : string).

Definition as_stream (plaintext : Plaintext) : string :=
  match plaintext with
  | PlainStream content => content
  | PlainStr s => s
  end.

(** Truth value of an optional string: [None] and [''] are false. *)
Definition truthy (o : option string) : bool :=
  match o with
  | Some s => negb (String.eqb s "")
  | None => false
  end.

Section CryptoUtil.
Context {G : Type} `{!Scrypt} `{!GnuPG G}.
Local Open Scope py_scope.

(** *** Calls to the collaborators *)

Definition os_environ_get (name : string) : M G (option string) :=
  emit (EvEnviron name) ;;
  gets (fun st => st_environ st !! name).

(** [subprocess.check_call(['srm'], stdout=subprocess.PIPE)] *)
Inductive CheckCall : Type := Returned | CalledProcessError.

Definition check_call_srm : M G CheckCall :=
  emit EvSrm ;;
  o <- gets st_srm ;;
  match o with
  | SrmExit 0 => ret Returned
  | SrmExit _ => ret CalledProcessError
  | SrmNotInstalled => raise (OSError "srm")
  end.

Definition os_path_exists (path : string) : M G bool :=
  emit (EvExists path) ;;
  gets (fun st => bool_decide (is_Some (st_files st !! path))).

(** [with io.open(path) as f: f.read()] *)
Definition io_open_read (path : string) : M G string :=
  emit (EvOpen path) ;;
  o <- gets (fun st => st_files st !! path) ;;
  match o with
  | Some content => ret (universal_newlines content)
  | None => raise (IOError path)
  end.

Definition storage_verify (path : string) : M G unit :=
  emit (EvVerify path) ;;
  good <- gets (fun st => st_verify st path) ;;
  if (good : bool) then ret tt else raise (PathException path).

Definition call_scrypt (password salt : string) (params : ScryptParams)
    : M G string :=
  emit (EvScrypt password salt params) ;;
  ret (scrypt_hash password salt params).

Definition call_list_keys : M G (list GpgKey) :=
  emit EvListKeys ;;
  gets (fun st => gpg_list_keys (st_keyring st)).

Definition call_delete_keys (fpr : string) (secret : bool) : M G unit :=
  emit (EvDeleteKeys fpr secret) ;;
  modify (fun st => set_keyring (gpg_delete_keys fpr secret (st_keyring st)) st).

Definition call_export_keys (fpr : option string) : M G string :=
  emit (EvExportKeys fpr) ;;
  gets (fun st => gpg_export_keys fpr (st_keyring st)).

Definition call_gen_key (key_type : string) (key_length : Z)
    (passphrase name : string) : M G string :=
  emit (EvGenKey key_type key_length passphrase name) ;;
  r <- gets (fun st =>
               gpg_gen_key key_type key_length passphrase name
                           (st_keyring st)) ;;
  modify (set_keyring (snd r)) ;;
  ret (fst r).

Definition call_encrypt (stream : string) (recipients : list string)
    (output : option string) (always_trust armor : bool) : M G Crypt :=
  emit (EvEncrypt stream recipients output always_trust armor) ;;
  gets (fun st =>
          gpg_encrypt stream recipients output always_trust armor
                      (st_keyring st)).

Definition call_decrypt (ciphertext passphrase : string) : M G Crypt :=
  emit (EvDecrypt ciphertext passphrase) ;;
  gets (fun st => gpg_decrypt ciphertext passphrase (st_keyring st)).

(** *** Construction *)

Definition do_runtime_tests (id_pepper gpg_pepper : string) : M G unit :=
  if String.eqb id_pepper gpg_pepper
  then raise pepper_collision
  else
    (* crash if we don't have srm *)
    check_call_srm ;;
    ret tt.

Definition __init__ (scrypt_params_ : ScryptParams)
    (scrypt_id_pepper_ scrypt_gpg_pepper_ securedrop_root_ word_list_
     nouns_file adjectives_file gpg_key_dir : string) : M G CryptoUtil :=
  env <- os_environ_get "SECUREDROP_ENV" ;;
  let test := bool_decide (env = Some "test") in
  (* Optimize crypto to speed up tests *)
  let key_length := if test then 1024%Z else 4096%Z in
  let params :=
    if test then test_scrypt_params else scrypt_params_ in
  do_runtime_tests scrypt_id_pepper_ scrypt_gpg_pepper_ ;;
  emit (EvGpgInit "gpg2" gpg_key_dir) ;;
  modify (set_language2words ∅) ;;
  nouns_text <- io_open_read nouns_file ;;
  adjectives_text <- io_open_read adjectives_file ;;
  ret {| securedrop_root := securedrop_root_;
         word_list := word_list_;
         gpg_key_length := key_length;
         scrypt_params := params;
         scrypt_id_pepper := scrypt_id_pepper_;
         scrypt_gpg_pepper := scrypt_gpg_pepper_;
         nouns := splitlines nouns_text;
         adjectives := splitlines adjectives_text |}.

Variable self : CryptoUtil.

(** *** Word lists *)

(** [os.path.join(self.__securedrop_root, 'wordlists', locale + '.txt')] *)
Definition locale_wordlist_path (locale : string) : string :=
  path_join (securedrop_root self) ["wordlists"; locale ++ ".txt"].

Definition get_wordlist (locale : string) : M G (list string) :=
  cache <- gets st_language2words ;;
  match cache !! locale with
  | Some words => ret words
  | None =>
      wordlist_path <-
        (if negb (String.eqb locale "en") then
           let path := locale_wordlist_path locale in
           found <- os_path_exists path ;;
           if (found : bool) then ret path else ret (word_list self)
         else ret (word_list self)) ;;
      text <- io_open_read wordlist_path ;;
      let content := splitlines text in
      modify (fun st =>
                set_language2words
                  (<[locale := content]> (st_language2words st)) st) ;;
      ret content
  end.

(** *** Derivation *)

Definition hash_codename (codename : string) (salt : option string)
    : M G string :=
  let salt := match salt with
              | None => scrypt_id_pepper self
              | Some salt => salt
              end in
  cleaned <- lift (clean codename "") ;;
  raw <- call_scrypt cleaned salt (scrypt_params self) ;;
  ret (b32encode raw).

(** *** Key pairs *)

Definition genkeypair (name secret : string) : M G string :=
  name <- lift (clean name "") ;;
  secret <- hash_codename secret (Some (scrypt_gpg_pepper self)) ;;
  call_gen_key GPG_KEY_TYPE (gpg_key_length self) secret name.

(** The two nested loops of [getkey] over the listed keys. *)
Fixpoint getkey_scan (name : string) (keys : list GpgKey) : option string :=
  match keys with
  | [] => None
  | key :: keys' =>
      if existsb (str_in name) (uids key) then Some (fingerprint key)
      else getkey_scan name keys'
  end.

Definition getkey (name : string) : M G (option string) :=
  keys <- call_list_keys ;;
  ret (getkey_scan name keys).

Definition delete_reply_keypair (source_filesystem_id : string) : M G unit :=
  key <- getkey source_filesystem_id ;;
  match key with
  | Some fpr =>
      if truthy key then
        call_delete_keys fpr true ;;   (* private key *)
        call_delete_keys fpr false     (* public key *)
      else ret tt
  | None => ret tt
  end.

Definition export_pubkey (name : string) : M G string :=
  fpr <- getkey name ;;
  call_export_keys fpr.

Definition encrypt (plaintext : Plaintext) (fingerprints : Fingerprints)
    (output : option string) : M G string :=
  (* Verify the output path *)
  match output with
  | Some path => if truthy output then storage_verify path else ret tt
  | None => ret tt
  end ;;
  let fingerprints := as_list fingerprints in
  let fingerprints := map remove_spaces fingerprints in
  let plaintext := as_stream plaintext in
  out <- call_encrypt plaintext fingerprints output true false ;;
  if ok out then ret (data out)
  else raise (CryptoException (stderr out)).

Definition decrypt (secret ciphertext : string) : M G string :=
  hashed_codename <- hash_codename secret (Some (scrypt_gpg_pepper self)) ;;
  out <- call_decrypt ciphertext hashed_codename ;;
  ret (data out).
End CryptoUtil.
Arguments locale_wordlist_path : simpl never.

(** ** Random identifiers *)

(** One draw of the system random source, as [random.choice] uses it:
    [int(self.random() * n)], an index below [n] for every positive
    [n]. *)
Record Draw : Type := {
  pick : nat -> nat;
  pick_lt : forall n, 0 < n -> pick n < n
}.

(** The outcome of a method that draws: besides the exceptions of the
    module, [random.choice] raises [IndexError] on an empty sequence. *)
Inductive Drawn (A : Type) : Type :=
| Picked (a : A)
| ModuleError (e : Exn)
| IndexError.
Arguments Picked {A} a.
Arguments ModuleError {A} e.
Arguments IndexError {A}.

(** [random.choice(seq)]: [seq[int(self.random() * len(seq))]]. *)
Definition random_choice (d : Draw) (seq : list string) : option string :=
  nth_error seq (pick d (length seq)).

Section RandomIds.
Context {G : Type}.
Variable self : CryptoUtil.
(** The draws of [SystemRandom], in the order the method asks for
    them. *)
Variable draws : nat -> Draw.

(** The generator [random.choice(self.get_wordlist(locale)) for x in
    range(n)], run from iteration [x] on: every iteration asks for the
    word list again before it draws. *)
Fixpoint genrandomid_words (locale : string) (x n : nat) (st : State G)
    : Drawn (list string) * State G :=
  match n with
  | O => (Picked [], st)
  | S n' =>
      match get_wordlist self locale st with
      | (Raise e, st') => (ModuleError e, st')
      | (Ok words, st') =>
          match random_choice (draws x) words with
          | None => (IndexError, st')
          | Some word =>
              match genrandomid_words locale (S x) n' st' with
              | (Picked rest, st'') => (Picked (word :: rest), st'')
              | (ModuleError e, st'') => (ModuleError e, st'')
              | (IndexError, st'') => (IndexError, st'')
              end
          end
      end
  end.

(** [genrandomid(words_in_random_id=None, locale='en')] *)
Definition genrandomid (words_in_random_id : option Z)
    (locale : option string) (st : State G) : Drawn string * State G :=
  let words_in_random_id :=
    match words_in_random_id with
    | None => DEFAULT_WORDS_IN_RANDOM_ID
    | Some n => n
    end in
  let locale := match locale with None => "en" | Some l => l end in
  match genrandomid_words locale 0 (Z.to_nat words_in_random_id) st with
  | (Picked words, st') => (Picked (String.concat " " words), st')
  | (ModuleError e, st') => (ModuleError e, st')
  | (IndexError, st') => (IndexError, st')
  end.

(** [display_id()] *)
Definition display_id : Drawn string :=
  match random_choice (draws 0) (adjectives self) with
  | None => IndexError
  | Some adjective =>
      match random_choice (draws 1) (nouns self) with
      | None => IndexError
      | Some noun => Picked (String.concat " " [adjective; noun])
      end
  end.
End RandomIds.

(** Draws for the small deployment: always the last element. *)
Definition last_draw : Draw :=
  {| pick n := Nat.pred n;
     pick_lt n Hn := Nat.lt_pred_l n (Nat.neq_sym 0 n (Nat.lt_neq 0 n Hn)) |}.

(** ** A small engine and a small deployment

    A keyring simple enough to run: every key records whether its
    private half is still there and under which passphrase.  The
    theorems below hold for every engine; this one serves to evaluate the
    module on concrete inputs. *)

Record DemoKey : Type := {
  dk_key : GpgKey;
  dk_secret : option string       (* passphrase of the private half *)
}.

Definition demo_delete (fpr : string) (secret : bool) (ring : list DemoKey)
    : list DemoKey :=
  if secret then
    map (fun k => if String.eqb (fingerprint (dk_key k)) fpr
                  then {| dk_key := dk_key k; dk_secret := None |}
                  else k) ring
  else
    filter (fun k => negb (String.eqb (fingerprint (dk_key k)) fpr
                           && bool_decide (dk_secret k = None))) ring.

Definition demo_has (ring : list DemoKey) (fpr : string) : bool :=
  existsb (fun k => String.eqb (fingerprint (dk_key k)) fpr) ring.

Definition demo_gen (passphrase name : string) (ring : list DemoKey)
    : string * list DemoKey :=
  let fpr := "FPR " ++ name in
  let key := {| fingerprint := fpr;
                uids := ["Autogenerated Key <" ++ name ++ ">"] |} in
  (fpr, (ring ++ [ {| dk_key := key; dk_secret := Some passphrase |} ])%list).

Definition demo_encrypt (stream : string) (recipients : list string)
    (ring : list DemoKey) : Crypt :=
  if forallb (demo_has ring) recipients
  then {| ok := true; data := stream; stderr := "" |}
  else {| ok := false; data := ""; stderr := "gpg: public key not found" |}.

Definition demo_decrypt (ciphertext passphrase : string)
    (ring : list DemoKey) : Crypt :=
  if existsb (fun k => bool_decide (dk_secret k = Some passphrase)) ring
  then {| ok := true; data := ciphertext; stderr := "" |}
  else {| ok := false; data := ""; stderr := "gpg: decryption failed" |}.

#[export] Instance demo_gpg : GnuPG (list DemoKey) := {
  gpg_list_keys ring := map dk_key ring;
  gpg_delete_keys := demo_delete;
  gpg_export_keys fpr ring :=
    match fpr with
    | Some f => if demo_has ring f then "PUBLIC KEY " ++ f else ""
    | None => ""
    end;
  gpg_gen_key _ _ := demo_gen;
  gpg_encrypt stream recipients _ _ _ := demo_encrypt stream recipients;
  gpg_decrypt := demo_decrypt
}.

(** A derivation that keeps its inputs apart. *)
Definition demo_scrypt : Scrypt :=
  {| scrypt_hash password salt _ := salt ++ ":" ++ password |}.

Definition demo_params : ScryptParams :=
  {| sp_N := 2 ^ 14; sp_r := 8; sp_p := 1 |}.

Definition demo_files : gmap string string :=
  <["/sd/wordlist" := "apple" ++ String (ascii_of_nat 10) "berry"]>
  (<["/sd/wordlists/fr.txt" := "pomme" ++ String (ascii_of_nat 10) "baie"]>
  (<["/sd/nouns.txt" := "otter"]>
  (<["/sd/adjectives.txt" := "quiet"]> ∅))).

Definition demo_key : DemoKey :=
  {| dk_key := {| fingerprint := "AAAABBBB";
                  uids := ["Autogenerated Key <SOURCEID>"] |};
     dk_secret := Some "PASSPHRASE" |}.

Definition demo_state (ring : list DemoKey) : State (list DemoKey) :=
  {| st_environ := ∅;
     st_srm := SrmExit 1;
     st_files := demo_files;
     st_verify := fun path => String.prefix "/sd/store/" path;
     st_keyring := ring;
     st_language2words := ∅;
     st_log := [] |}.

Definition demo_self : CryptoUtil :=
  {| securedrop_root := "/sd";
     word_list := "/sd/wordlist";
     gpg_key_length := 4096;
     scrypt_params := demo_params;
     scrypt_id_pepper := "A";
     scrypt_gpg_pepper := "B";
     nouns := ["otter"];
     adjectives := ["quiet"] |}.

(** A second key for the same source, as a second [genkeypair] for the
    name leaves it. *)
Definition demo_twin : DemoKey :=
  {| dk_key := {| fingerprint := "CCCCDDDD";
                  uids := ["Autogenerated Key <SOURCEID>"] |};
     dk_secret := Some "PASSPHRASE" |}.

(** The deployment on a machine without [srm]. *)
Definition demo_state_without_srm : State (list DemoKey) :=
  {| st_environ := ∅;
     st_srm := SrmNotInstalled;
     st_files := demo_files;
     st_verify := fun path => String.prefix "/sd/store/" path;
     st_keyring := [];
     st_language2words := ∅;
     st_log := [] |}.

(** The same object with a default word list that is not there. *)
Definition demo_lost : CryptoUtil :=
  {| securedrop_root := "/sd";
     word_list := "/sd/lost";
     gpg_key_length := 4096;
     scrypt_params := demo_params;
     scrypt_id_pepper := "A";
     scrypt_gpg_pepper := "B";
     nouns := ["otter"];
     adjectives := ["quiet"] |}.

(** The random source of the small deployment. *)
Definition demo_draws (x : nat) : Draw := last_draw.

(** ** Properties *)

Lemma char_in_spec c s : char_in c s = true <-> In c (list_ascii_of_string s).
Proof.
  induction s as [|d s IH]; simpl.
  - split; [discriminate | tauto].
  - destruct (Ascii.eqb_spec c d) as [->|Hne].
    + split; auto.
    + rewrite IH. split; [auto | intros [H|H]; [congruence | exact H]].
Qed.

Lemma all_allowed_false s also :
  all_allowed s also = false <->
  exists c, In c (list_ascii_of_string s) /\
            char_in c DICEWARE_SAFE_CHARS = false /\ char_in c also = false.
Proof.
  induction s as [|d s IH]; cbn [all_allowed list_ascii_of_string].
  - split; [discriminate | intros (c & [] & _)].
  - destruct (char_in d DICEWARE_SAFE_CHARS) eqn:Hs;
      destruct (char_in d also) eqn:Ha; cbn [negb andb].
    1-3: rewrite IH; split;
      [ intros (c & Hc & H1 & H2); exists c; split; [right; exact Hc | auto]
      | intros (c & [<-|Hc] & H1 & H2); [congruence | exists c; auto] ].
    split; [intros _; exists d; split; [left; reflexivity | auto]
           | reflexivity].
Qed.

(** C8. [clean s also] raises the invalid-input exception exactly when
    some character of [s] is neither in the diceware-safe alphabet nor in
    [also]; otherwise it returns [s] itself.  [clean "[]"] raises and
    [clean "Helloworld"] returns ["Helloworld"]. *)
Theorem clean_spec (s also : string) :
  (clean s also = Raise (CryptoException ("invalid input: " ++ s)) <->
   exists c, In c (list_ascii_of_string s) /\
             ~ In c (list_ascii_of_string DICEWARE_SAFE_CHARS) /\
             ~ In c (list_ascii_of_string also)) /\
  (clean s also = Ok s \/
   clean s also = Raise (CryptoException ("invalid input: " ++ s))) /\
  clean "[]" "" = Raise (CryptoException "invalid input: []") /\
  clean "Helloworld" "" = Ok "Helloworld".
Proof.
  split; [|split; [|split; reflexivity]].
  - unfold clean. destruct (all_allowed s also) eqn:Hall.
    + split; [discriminate|].
      intros (c & Hc & Hs & Ha).
      assert (all_allowed s also = false) as Hf; [|congruence].
      apply all_allowed_false. exists c. repeat split; auto.
      * destruct (char_in c DICEWARE_SAFE_CHARS) eqn:E; auto.
        apply char_in_spec in E. contradiction.
      * destruct (char_in c also) eqn:E; auto.
        apply char_in_spec in E. contradiction.
    + split; [|reflexivity]. intros _.
      apply all_allowed_false in Hall as (c & Hc & Hs & Ha).
      exists c. repeat split; auto.
      * rewrite <- char_in_spec. congruence.
      * rewrite <- char_in_spec. congruence.
  - unfold clean. destruct (all_allowed s also); auto.
Qed.

(** ** Running the monad *)

Ltac unfold_m :=
  unfold bind, ret, raise, lift, gets, modify, emit in *.

Ltac unfold_calls :=
  unfold os_environ_get, check_call_srm, os_path_exists, io_open_read,
    storage_verify, call_scrypt, call_list_keys, call_delete_keys,
    call_export_keys, call_gen_key, call_encrypt, call_decrypt in *.

Ltac run := unfold_calls; unfold_m; cbn [fst snd].

Lemma log_add_event {G} (e : Event) (st : State G) :
  st_log (add_event e st) = (st_log st ++ [e])%list.
Proof. reflexivity. Qed.

Lemma log_set_language2words {G} m (st : State G) :
  st_log (set_language2words m st) = st_log st.
Proof. reflexivity. Qed.

Lemma log_set_keyring {G} k (st : State G) :
  st_log (set_keyring k st) = st_log st.
Proof. reflexivity. Qed.

(** ** Derivation *)

Section Derivation.
Context {G : Type} `{!Scrypt}.
Variable self : CryptoUtil.

(** The salt [hash_codename] uses: the identity pepper unless one is
    given. *)
Lemma hash_codename_run (codename : string) (salt : option string)
    (st : State G) :
  clean codename "" = Ok codename ->
  hash_codename self codename salt st =
  (Ok (b32encode (scrypt_hash codename (default (scrypt_id_pepper self) salt)
                              (scrypt_params self))),
   add_event (EvScrypt codename (default (scrypt_id_pepper self) salt)
                       (scrypt_params self)) st).
Proof.
  intros Hc. unfold hash_codename. run. rewrite Hc. destruct salt; reflexivity.
Qed.

Lemma hash_codename_invalid (codename : string) (salt : option string)
    (st : State G) :
  clean codename "" <> Ok codename ->
  hash_codename self codename salt st =
  (Raise (CryptoException ("invalid input: " ++ codename)), st).
Proof.
  intros Hc. unfold hash_codename. run. revert Hc. unfold clean.
  destruct (all_allowed codename ""); [congruence | reflexivity].
Qed.
End Derivation.

(** ** Construction *)

Section Construction.
Context {G : Type}.
Variables (params : ScryptParams).
Variables (id_pepper gpg_pepper root wordlist nouns_file adjectives_file
           gpg_key_dir : string).

(** What a successful construction returns. *)
Lemma init_ok (st st' : State G) (self : CryptoUtil) :
  __init__ params id_pepper gpg_pepper root wordlist nouns_file
           adjectives_file gpg_key_dir st = (Ok self, st') ->
  let test := bool_decide (st_environ st !! "SECUREDROP_ENV" = Some "test") in
  id_pepper <> gpg_pepper /\
  scrypt_params self = (if test then test_scrypt_params else params) /\
  gpg_key_length self = (if test then 1024%Z else 4096%Z) /\
  scrypt_id_pepper self = id_pepper /\
  scrypt_gpg_pepper self = gpg_pepper.
Proof.
  unfold __init__, do_runtime_tests. run.
  destruct (String.eqb_spec id_pepper gpg_pepper) as [|Hne]; [discriminate|].
  cbn.
  destruct (st_srm st) as [[| |]|]; cbn; try discriminate;
    (destruct (st_files st !! nouns_file); cbn; [|discriminate]);
    (destruct (st_files st !! adjectives_file); cbn; [|discriminate]);
    intros [= <- _]; cbn; auto.
Qed.

(** C1. The constructor raises the pepper-collision error exactly when
    the two peppers are equal, and then it has done nothing but read the
    environment: no engine was created, no file was read and no object
    exists that could serve a request.  When the peppers differ the
    constructor goes on past the check, to the [srm] probe, and with
    [srm] installed and the two word files readable it returns the
    object. *)
Theorem init_pepper_check (st : State G) :
  let r := __init__ params id_pepper gpg_pepper root wordlist nouns_file
                    adjectives_file gpg_key_dir st in
  (fst r = Raise pepper_collision <-> id_pepper = gpg_pepper) /\
  (id_pepper = gpg_pepper ->
   snd r = add_event (EvEnviron "SECUREDROP_ENV") st) /\
  (id_pepper <> gpg_pepper ->
   exists evs,
     st_log (snd r) =
     (st_log st ++ EvEnviron "SECUREDROP_ENV" :: EvSrm :: evs)%list) /\
  (id_pepper <> gpg_pepper ->
   st_srm st <> SrmNotInstalled ->
   is_Some (st_files st !! nouns_file) ->
   is_Some (st_files st !! adjectives_file) ->
   exists self, fst r = Ok self /\
                scrypt_id_pepper self = id_pepper /\
                scrypt_gpg_pepper self = gpg_pepper).
Proof.
  unfold __init__, do_runtime_tests. run.
  destruct (String.eqb_spec id_pepper gpg_pepper) as [Heq|Hne]; cbn.
  - repeat split; auto; contradiction.
  - split; [split; [|contradiction]|split; [contradiction|split]].
    + destruct (st_srm st) as [[| |]|]; cbn; try discriminate;
        destruct (st_files st !! nouns_file); cbn; try discriminate;
        destruct (st_files st !! adjectives_file); cbn; discriminate.
    + intros _.
      destruct (st_srm st) as [[| |]|]; cbn;
        try (destruct (st_files st !! nouns_file); cbn;
             try destruct (st_files st !! adjectives_file); cbn);
        rewrite <- ?app_assoc; cbn; eexists; reflexivity.
    + intros _ Hsrm [n Hn] [a Ha].
      destruct (st_srm st) as [[| |]|]; [..|contradiction]; cbn;
        rewrite Hn; cbn; rewrite Ha; cbn; eexists; repeat split.
Qed.

(** C2. The constructor substitutes the cheap parameters only when the
    environment variable [SECUREDROP_ENV] is set to exactly [test]; with
    the variable unset or set to anything else the object carries the
    configured parameters and the 4096-bit key length, and every
    derivation hands those parameters to scrypt. *)
Theorem init_scrypt_params `{!Scrypt} (st st' : State G) (self : CryptoUtil) :
  __init__ params id_pepper gpg_pepper root wordlist nouns_file
           adjectives_file gpg_key_dir st = (Ok self, st') ->
  (st_environ st !! "SECUREDROP_ENV" <> Some "test" ->
   scrypt_params self = params /\ gpg_key_length self = 4096%Z /\
   forall (codename : string) (salt : option string) (st1 : State G),
     clean codename "" = Ok codename ->
     let salt' := default id_pepper salt in
     hash_codename self codename salt st1 =
     (Ok (b32encode (scrypt_hash codename salt' params)),
      add_event (EvScrypt codename salt' params) st1)) /\
  (scrypt_params self <> params ->
   st_environ st !! "SECUREDROP_ENV" = Some "test") /\
  (st_environ st !! "SECUREDROP_ENV" = Some "test" ->
   scrypt_params self = test_scrypt_params).
Proof.
  intros Hinit. apply init_ok in Hinit as (_ & Hp & Hl & Hid & _).
  cbn zeta in Hp, Hl. case_bool_decide as Henv.
  - repeat split; auto; contradiction.
  - split; [|split; [congruence|contradiction]].
    intros _. repeat split; auto.
    intros codename salt st1 Hc. cbn zeta.
    rewrite hash_codename_run by exact Hc. rewrite Hp, Hid. reflexivity.
Qed.
End Construction.

(** ** Word lists *)

Section WordLists.
Context {G : Type}.
Variable self : CryptoUtil.

(** What reading a word list file yields. *)
Lemma io_open_read_some (path text : string) (st : State G) :
  st_files st !! path = Some text ->
  io_open_read path st =
  (Ok (universal_newlines text), add_event (EvOpen path) st).
Proof. intros H. unfold io_open_read. run. cbn. rewrite H. reflexivity. Qed.

Lemma get_wordlist_cached (locale : string) (words : list string)
    (st : State G) :
  st_language2words st !! locale = Some words ->
  get_wordlist self locale st = (Ok words, st).
Proof. intros H. unfold get_wordlist. run. rewrite H. reflexivity. Qed.

(** A successful call leaves its result in the cache. *)
Lemma get_wordlist_caches (locale : string) (words : list string)
    (st st' : State G) :
  get_wordlist self locale st = (Ok words, st') ->
  st_language2words st' !! locale = Some words.
Proof.
  unfold get_wordlist. run.
  destruct (st_language2words st !! locale) as [ws|] eqn:Hc.
  - intros [= <- <-]. exact Hc.
  - destruct (negb (locale =? "en")%string); cbn.
    + destruct (bool_decide _); cbn;
        match goal with
        | |- context [st_files st !! ?p] => destruct (st_files st !! p)
        end; cbn; intros [= <- <-]; cbn; apply lookup_insert_eq.
    + destruct (st_files st !! word_list self); cbn;
        intros [= <- <-]; cbn; apply lookup_insert_eq.
Qed.

(** C9. A cached locale is answered from the cache, without touching the
    filesystem.  An uncached locale other than [en] is read from its own
    word list file when that file exists and from the default word list
    otherwise; [en] is read from the default word list without a probe.
    Every result is stored under the requested locale, so that the same
    call made again is answered from the cache: it changes nothing and
    probes nothing. *)
Theorem get_wordlist_spec (locale : string) (st : State G) :
  (forall words,
     st_language2words st !! locale = Some words ->
     get_wordlist self locale st = (Ok words, st)) /\
  (forall text,
     st_language2words st !! locale = None ->
     locale <> "en" ->
     st_files st !! locale_wordlist_path self locale = Some text ->
     let words := splitlines (universal_newlines text) in
     get_wordlist self locale st =
     (Ok words,
      set_language2words (<[locale := words]> (st_language2words st))
        (add_event (EvOpen (locale_wordlist_path self locale))
           (add_event (EvExists (locale_wordlist_path self locale)) st)))) /\
  (forall text,
     st_language2words st !! locale = None ->
     locale <> "en" ->
     st_files st !! locale_wordlist_path self locale = None ->
     st_files st !! word_list self = Some text ->
     let words := splitlines (universal_newlines text) in
     get_wordlist self locale st =
     (Ok words,
      set_language2words (<[locale := words]> (st_language2words st))
        (add_event (EvOpen (word_list self))
           (add_event (EvExists (locale_wordlist_path self locale)) st)))) /\
  (forall text,
     st_language2words st !! locale = None ->
     locale = "en" ->
     st_files st !! word_list self = Some text ->
     let words := splitlines (universal_newlines text) in
     get_wordlist self locale st =
     (Ok words,
      set_language2words (<[locale := words]> (st_language2words st))
        (add_event (EvOpen (word_list self)) st))) /\
  (forall words st',
     get_wordlist self locale st = (Ok words, st') ->
     get_wordlist self locale st' = (Ok words, st')).
Proof.
  split; [|split; [|split; [|split]]].
  - intros words Hc. exact (get_wordlist_cached locale words st Hc).
  - intros text Hc Hen Hf. unfold get_wordlist. run. rewrite Hc.
    destruct (String.eqb_spec locale "en") as [|_]; [contradiction|]. cbn.
    rewrite Hf. rewrite bool_decide_eq_true_2 by eauto. cbn.
    rewrite Hf. reflexivity.
  - intros text Hc Hen Hf Hd. unfold get_wordlist. run. rewrite Hc.
    destruct (String.eqb_spec locale "en") as [|_]; [contradiction|]. cbn.
    rewrite Hf.
    rewrite bool_decide_eq_false_2 by (intros [? ?]; discriminate). cbn.
    rewrite Hd. reflexivity.
  - intros text Hc -> Hd. unfold get_wordlist. run. rewrite Hc. cbn.
    rewrite Hd. reflexivity.
  - intros words st' Hrun.
    exact (get_wordlist_cached locale words st'
             (get_wordlist_caches locale words st st' Hrun)).
Qed.
End WordLists.

(** ** Key pairs *)

Section KeyPairs.
Context {G : Type} `{!Scrypt} `{!GnuPG G}.
Variable self : CryptoUtil.

(** [getkey] lists the keys and scans them; it changes nothing. *)
Lemma getkey_run (name : string) (st : State G) :
  getkey name st =
  (Ok (getkey_scan name (gpg_list_keys (st_keyring st))),
   add_event EvListKeys st).
Proof. reflexivity. Qed.

(** The scan answers with the fingerprint of a listed key one of whose
    user ids contains the name. *)
Lemma getkey_scan_some (name fpr : string) (keys : list GpgKey) :
  getkey_scan name keys = Some fpr ->
  exists key uid, In key keys /\ fingerprint key = fpr /\
                  In uid (uids key) /\ str_in name uid = true.
Proof.
  induction keys as [|key keys IH]; cbn; [discriminate|].
  destruct (existsb (str_in name) (uids key)) eqn:Hex.
  - intros [= <-]. apply existsb_exists in Hex as (uid & Hin & Huid).
    exists key, uid. auto.
  - intros Hrest. destruct (IH Hrest) as (k & uid & Hk & ?).
    exists k, uid. auto.
Qed.

Lemma getkey_scan_none (name : string) (keys : list GpgKey) :
  getkey_scan name keys = None <->
  forall key uid, In key keys -> In uid (uids key) -> str_in name uid = false.
Proof.
  induction keys as [|key keys IH]; cbn.
  - split; [intros _ ? ? [] | reflexivity].
  - destruct (existsb (str_in name) (uids key)) eqn:Hex.
    + split; [discriminate|]. intros Hall.
      apply existsb_exists in Hex as (uid & Hin & Huid).
      rewrite (Hall key uid) in Huid by auto. discriminate.
    + rewrite IH. split.
      * intros Hall k uid [<-|Hk] Hu; [|eauto].
        destruct (str_in name uid) eqn:E; [|reflexivity].
        assert (existsb (str_in name) (uids key) = true) as Habs
          by (apply existsb_exists; eauto).
        congruence.
      * intros Hall k uid Hk Hu. apply (Hall k uid); auto.
Qed.

(** The run of [delete_reply_keypair], written out. *)
Lemma delete_reply_keypair_run (name : string) (st : State G) :
  delete_reply_keypair name st =
  match getkey_scan name (gpg_list_keys (st_keyring st)) with
  | Some fpr =>
      if String.eqb fpr "" then (Ok tt, add_event EvListKeys st)
      else
        let st1 := add_event (EvDeleteKeys fpr true)
                             (add_event EvListKeys st) in
        let st2 := set_keyring
                     (gpg_delete_keys fpr true (st_keyring st1)) st1 in
        let st3 := add_event (EvDeleteKeys fpr false) st2 in
        (Ok tt,
         set_keyring (gpg_delete_keys fpr false (st_keyring st3)) st3)
  | None => (Ok tt, add_event EvListKeys st)
  end.
Proof.
  unfold delete_reply_keypair, bind. rewrite getkey_run.
  destruct (getkey_scan name (gpg_list_keys (st_keyring st))) as [fpr|];
    [|reflexivity].
  cbn [truthy]. destruct (String.eqb fpr ""); reflexivity.
Qed.

(** C6 (as the module has it).  Without a key for the identity,
    [delete_reply_keypair] returns normally and leaves the keyring as it
    is: it has only listed the keys.  With a key, it asks the engine to
    delete the private half and then the public half of the key the
    lookup finds, in this order, and nothing else.  Whatever the keyring,
    the deletions it requests are none or exactly these two, so the
    public half is never deleted first.  Calling it again changes nothing
    once the lookup finds no key for the identity any more; a first call
    alone does not see to that. *)
Theorem delete_reply_keypair_spec (name : string) (st : State G) :
  let keys := gpg_list_keys (st_keyring st) in
  let r := delete_reply_keypair name st in
  (getkey_scan name keys = None -> r = (Ok tt, add_event EvListKeys st)) /\
  (forall fpr,
     getkey_scan name keys = Some fpr -> fpr <> "" ->
     fst r = Ok tt /\
     st_keyring (snd r) =
       gpg_delete_keys fpr false (gpg_delete_keys fpr true (st_keyring st)) /\
     st_log (snd r) =
       (st_log st ++
        [EvListKeys; EvDeleteKeys fpr true; EvDeleteKeys fpr false])%list) /\
  (fst r = Ok tt /\
   exists evs,
     st_log (snd r) = (st_log st ++ EvListKeys :: evs)%list /\
     (evs = [] \/
      exists fpr, evs = [EvDeleteKeys fpr true; EvDeleteKeys fpr false])) /\
  (getkey_scan name (gpg_list_keys (st_keyring (snd r))) = None ->
   delete_reply_keypair name (snd r) =
   (Ok tt, add_event EvListKeys (snd r))).
Proof.
  cbn zeta.
  assert (forall st' : State G,
            getkey_scan name (gpg_list_keys (st_keyring st')) = None ->
            delete_reply_keypair name st' = (Ok tt, add_event EvListKeys st'))
    as Hnoop.
  { intros st' Hnone. rewrite delete_reply_keypair_run, Hnone. reflexivity. }
  split; [apply Hnoop|]. split; [|split; [|apply Hnoop]].
  - intros fpr Hk Hne. rewrite delete_reply_keypair_run, Hk.
    destruct (String.eqb_spec fpr "") as [|_]; [contradiction|]. cbn.
    rewrite <- !app_assoc. auto.
  - rewrite delete_reply_keypair_run.
    destruct (getkey_scan name (gpg_list_keys (st_keyring st))) as [fpr|].
    + destruct (String.eqb fpr ""); cbn.
      * split; [reflexivity|]. exists []. auto.
      * split; [reflexivity|]. eexists. rewrite <- !app_assoc.
        split; [reflexivity|]. right. exists fpr. reflexivity.
    + cbn. split; [reflexivity|]. exists []. auto.
Qed.

(** The run of [export_pubkey]: the outcome of the lookup goes to the
    engine's export as it is, without the test [delete_reply_keypair]
    makes. *)
Lemma export_pubkey_run (name : string) (st : State G) :
  let fpr := getkey_scan name (gpg_list_keys (st_keyring st)) in
  export_pubkey name st =
  (Ok (gpg_export_keys fpr (st_keyring st)),
   add_event (EvExportKeys fpr) (add_event EvListKeys st)).
Proof. reflexivity. Qed.

(** What [decrypt] does with a codename the sanitizer accepts: the
    passphrase is derived anew with the key-encryption pepper, the engine
    is asked once, and the [data] of its result is returned without a
    look at its [ok]. *)
Lemma decrypt_run (secret ciphertext : string) (st : State G) :
  clean secret "" = Ok secret ->
  let passphrase :=
    b32encode (scrypt_hash secret (scrypt_gpg_pepper self)
                           (scrypt_params self)) in
  decrypt self secret ciphertext st =
  (Ok (data (gpg_decrypt ciphertext passphrase (st_keyring st))),
   add_event (EvDecrypt ciphertext passphrase)
     (add_event (EvScrypt secret (scrypt_gpg_pepper self)
                          (scrypt_params self)) st)).
Proof.
  intros Hc. cbn zeta. unfold decrypt, bind.
  rewrite hash_codename_run by exact Hc. reflexivity.
Qed.
End KeyPairs.

(** ** Encryption *)

Section Encryption.
Context {G : Type} `{!GnuPG G}.

Lemma remove_spaces_filter (s : string) :
  list_ascii_of_string (remove_spaces s) =
  filter (fun c => negb (Ascii.eqb c " ")) (list_ascii_of_string s).
Proof.
  induction s as [|c s IH]; [reflexivity|]. cbn.
  destruct (Ascii.eqb c " "); cbn; [exact IH | f_equal; exact IH].
Qed.

Lemma remove_spaces_no_space (s : string) :
  char_in " " (remove_spaces s) = false.
Proof.
  induction s as [|c s IH]; [reflexivity|]. cbn [remove_spaces].
  destruct (Ascii.eqb c " ") eqn:E; [exact IH|].
  cbn [char_in]. rewrite Ascii.eqb_sym, E. exact IH.
Qed.

(** A fingerprint as GnuPG prints it, with spaces for its only
    whitespace, has no whitespace left once the spaces are removed. *)
Lemma remove_spaces_no_whitespace (s : string) :
  (forall c, In c (list_ascii_of_string s) ->
             is_whitespace c = true -> c = " "%char) ->
  has_whitespace (remove_spaces s) = false.
Proof.
  unfold has_whitespace.
  induction s as [|c s IH]; intros Hs; [reflexivity|].
  cbn [remove_spaces].
  destruct (Ascii.eqb_spec c " ") as [->|Hc].
  - apply IH. intros d Hd. apply Hs. right. exact Hd.
  - cbn [list_ascii_of_string existsb].
    destruct (is_whitespace c) eqn:Hw.
    + exfalso. apply Hc, Hs; [left; reflexivity | exact Hw].
    + cbn [orb]. apply IH. intros d Hd. apply Hs. right. exact Hd.
Qed.

(** C7. A given output path is verified by the storage layer first, and
    when that fails the exception leaves [encrypt] before the engine is
    called.  Otherwise the engine is called once, always trusting and
    without armor, with the recipients the caller gave, each without its
    spaces: a fingerprint as GnuPG prints it, with spaces between its
    groups, reaches the engine without any whitespace.  [encrypt]
    returns the engine's data when the engine reports success and raises
    [CryptoException] with the engine's stderr when it does not. *)
Theorem encrypt_spec (plaintext : Plaintext) (fingerprints : Fingerprints)
    (output : option string) (st : State G) :
  let recipients := map remove_spaces (as_list fingerprints) in
  let stream := as_stream plaintext in
  let out := gpg_encrypt stream recipients output true false (st_keyring st) in
  let answer :=
    if ok out then Ok (data out) else Raise (CryptoException (stderr out)) in
  (forall path,
     output = Some path -> path <> "" -> st_verify st path = false ->
     encrypt plaintext fingerprints output st =
     (Raise (PathException path), add_event (EvVerify path) st)) /\
  (forall path,
     output = Some path -> path <> "" -> st_verify st path = true ->
     encrypt plaintext fingerprints output st =
     (answer,
      add_event (EvEncrypt stream recipients output true false)
        (add_event (EvVerify path) st))) /\
  (truthy output = false ->
   encrypt plaintext fingerprints output st =
   (answer, add_event (EvEncrypt stream recipients output true false) st)) /\
  Forall (fun r => char_in " " r = false) recipients /\
  Forall2 (fun given sent =>
             list_ascii_of_string sent =
             filter (fun c => negb (Ascii.eqb c " "))
                    (list_ascii_of_string given))
          (as_list fingerprints) recipients /\
  Forall (fun given =>
            (forall c, In c (list_ascii_of_string given) ->
                       is_whitespace c = true -> c = " "%char) ->
            has_whitespace (remove_spaces given) = false)
         (as_list fingerprints).
Proof.
  cbn zeta. split; [|split; [|split; [|split; [|split]]]].
  - intros path -> Hne Hv. unfold encrypt, storage_verify. run. cbn [truthy].
    destruct (String.eqb_spec path "") as [|_]; [contradiction|]. cbn.
    rewrite Hv. reflexivity.
  - intros path -> Hne Hv. unfold encrypt, storage_verify. run. cbn [truthy].
    destruct (String.eqb_spec path "") as [|_]; [contradiction|]. cbn.
    rewrite Hv. cbn.
    destruct (ok (gpg_encrypt _ _ _ _ _ _)); reflexivity.
  - intros Ht. unfold encrypt. run.
    destruct output as [path|]; cbn in Ht |- *.
    + rewrite Ht. cbn. destruct (ok (gpg_encrypt _ _ _ _ _ _)); reflexivity.
    + destruct (ok (gpg_encrypt _ _ _ _ _ _)); reflexivity.
  - induction (as_list fingerprints) as [|f fs IH]; cbn; constructor; auto.
    apply remove_spaces_no_space.
  - induction (as_list fingerprints) as [|f fs IH]; cbn; constructor; auto.
    apply remove_spaces_filter.
  - induction (as_list fingerprints) as [|f fs IH]; constructor; auto.
    apply remove_spaces_no_whitespace.
Qed.

(** C10. One fingerprint that is not in a list is treated as the list of
    that one fingerprint: the two calls run the same, and the engine is
    given the one recipient, without its spaces. *)
Theorem encrypt_single_fingerprint (plaintext : Plaintext) (fpr : string)
    (output : option string) (st : State G) :
  as_list (FprSingle fpr) = [fpr] /\
  encrypt plaintext (FprSingle fpr) output st =
  encrypt plaintext (FprList [fpr]) output st /\
  let stream := as_stream plaintext in
  let out :=
    gpg_encrypt stream [remove_spaces fpr] None true false (st_keyring st) in
  encrypt plaintext (FprSingle fpr) None st =
  (if ok out then Ok (data out) else Raise (CryptoException (stderr out)),
   add_event (EvEncrypt stream [remove_spaces fpr] None true false) st).
Proof.
  split; [reflexivity|]. split; [reflexivity|]. cbn zeta.
  unfold encrypt. run. cbn.
  destruct (ok (gpg_encrypt _ _ _ _ _ _)); reflexivity.
Qed.
End Encryption.

(** ** Base32 keeps different inputs apart *)

Lemma b32_sym_inj a4 a3 a2 a1 a0 b4 b3 b2 b1 b0 :
  b32_sym a4 a3 a2 a1 a0 = b32_sym b4 b3 b2 b1 b0 ->
  a4 = b4 /\ a3 = b3 /\ a2 = b2 /\ a1 = b1 /\ a0 = b0.
Proof.
  destruct a4, a3, a2, a1, a0, b4, b3, b2, b1, b0; cbv;
    intros E; try discriminate E; repeat split.
Qed.

Lemma b32_sym_not_pad b4 b3 b2 b1 b0 : b32_sym b4 b3 b2 b1 b0 <> "="%char.
Proof. destruct b4, b3, b2, b1, b0; cbv; discriminate. Qed.

Lemma list_ind5 {A} (P : list A -> Prop) :
  P [] -> (forall a, P [a]) -> (forall a b, P [a; b]) ->
  (forall a b c, P [a; b; c]) -> (forall a b c d, P [a; b; c; d]) ->
  (forall a b c d e l, P l -> P (a :: b :: c :: d :: e :: l)) ->
  forall l, P l.
Proof.
  intros H0 H1 H2 H3 H4 H5.
  assert (forall n l, length l <= n -> P l) as Hn.
  { induction n as [|n IH]; intros l Hl.
    - destruct l; [exact H0 | cbn in Hl; lia].
    - destruct l as [|a [|b [|c [|d [|e l]]]]]; auto.
      apply H5, IH. cbn in Hl. lia. }
  intros l. apply (Hn (length l)). lia.
Qed.

Ltac b32_bits :=
  repeat match goal with
    | H : (_ :: _) = (_ :: _) |- _ => injection H as ? H
    | H : [] = (_ :: _) |- _ => discriminate H
    | H : (_ :: _) = [] |- _ => discriminate H
    | H : b32_sym _ _ _ _ _ = "="%char |- _ =>
        exfalso; exact (b32_sym_not_pad _ _ _ _ _ H)
    | H : "="%char = b32_sym _ _ _ _ _ |- _ =>
        exfalso; exact (b32_sym_not_pad _ _ _ _ _ (eq_sym H))
    | H : b32_sym _ _ _ _ _ = b32_sym _ _ _ _ _ |- _ =>
        apply b32_sym_inj in H; destruct H as (? & ? & ? & ? & ?)
    end.

Lemma b32encode_list_inj (s t : list ascii) :
  b32encode_list s = b32encode_list t -> s = t.
Proof.
  revert t. induction s as [|a|a b|a b c|a b c d|a b c d e s IH] using list_ind5;
    intros [|a' [|b' [|c' [|d' [|e' t]]]]] E;
    try reflexivity;
    repeat match goal with x : ascii |- _ => destruct x end;
    cbn -[b32_sym] in E; b32_bits; subst; try reflexivity.
  f_equal. f_equal. f_equal. f_equal. f_equal. apply IH. assumption.
Qed.

Lemma b32encode_inj (s t : string) : b32encode s = b32encode t -> s = t.
Proof.
  unfold b32encode. intros E.
  apply (f_equal list_ascii_of_string) in E.
  rewrite !list_ascii_of_string_of_list_ascii in E.
  apply b32encode_list_inj in E.
  apply (f_equal string_of_list_ascii) in E.
  now rewrite !string_of_list_ascii_of_string in E.
Qed.

(** ** The two derivations *)

Section TwoPeppers.
Context {G : Type} `{!Scrypt}.
Variable self : CryptoUtil.



(** The usual idealisation of a key derivation function: scrypt never
    gives one output for two salts. *)
Hypothesis scrypt_salt_inj :
  forall password salt1 salt2 params,
    scrypt_hash password salt1 params = scrypt_hash password salt2 params ->
    salt1 = salt2.

End TwoPeppers.




(** ** The module on the small deployment *)

(** Construction with both peppers set to [A]: the scenario of the
    specification. *)
Lemma init_pepper_check_witness :
  "A" = "A" /\
  fst (__init__ demo_params "A" "A" "/sd" "/sd/wordlist" "/sd/nouns.txt"
                "/sd/adjectives.txt" "/keys" (demo_state [])) =
  Raise pepper_collision /\
  snd (__init__ demo_params "A" "A" "/sd" "/sd/wordlist" "/sd/nouns.txt"
                "/sd/adjectives.txt" "/keys" (demo_state [])) =
  add_event (EvEnviron "SECUREDROP_ENV") (demo_state []).
Proof.
  pose proof (init_pepper_check demo_params "A" "A" "/sd" "/sd/wordlist"
                "/sd/nouns.txt" "/sd/adjectives.txt" "/keys" (demo_state []))
    as (Hiff & Hst & _).
  split; [reflexivity|]. split.
  - apply Hiff. reflexivity.
  - apply Hst. reflexivity.
Defined.

(** Construction outside the test environment. *)
Lemma init_scrypt_params_witness :
  __init__ demo_params "A" "B" "/sd" "/sd/wordlist" "/sd/nouns.txt"
           "/sd/adjectives.txt" "/keys" (demo_state []) =
  (Ok demo_self,
   snd (__init__ demo_params "A" "B" "/sd" "/sd/wordlist" "/sd/nouns.txt"
                 "/sd/adjectives.txt" "/keys" (demo_state []))) /\
  st_environ (demo_state []) !! "SECUREDROP_ENV" <> Some "test" /\
  scrypt_params demo_self = demo_params /\
  gpg_key_length demo_self = 4096%Z.
Proof.
  assert (__init__ demo_params "A" "B" "/sd" "/sd/wordlist" "/sd/nouns.txt"
            "/sd/adjectives.txt" "/keys" (demo_state []) =
          (Ok demo_self,
           snd (__init__ demo_params "A" "B" "/sd" "/sd/wordlist"
                  "/sd/nouns.txt" "/sd/adjectives.txt" "/keys"
                  (demo_state [])))) as Hinit by (vm_compute; reflexivity).
  assert (st_environ (demo_state []) !! "SECUREDROP_ENV" <> Some "test")
    as Henv by (vm_compute; discriminate).
  destruct (init_scrypt_params (H := demo_scrypt) demo_params "A" "B" "/sd"
              "/sd/wordlist" "/sd/nouns.txt" "/sd/adjectives.txt" "/keys"
              (demo_state []) _ demo_self Hinit) as (Hprod & _).
  destruct (Hprod Henv) as (Hp & Hl & _).
  split; [exact Hinit|]. split; [exact Henv|]. split; [exact Hp | exact Hl].
Defined.


(** C4. The engine fails to decrypt (no key is unlocked by the
    passphrase of this codename) and [decrypt] returns the empty [data]
    of the failed result instead of raising. *)
Theorem decrypt_engine_failure_not_raised :
  let st := demo_state [demo_key] in
  let passphrase :=
    b32encode (scrypt_hash (Scrypt := demo_scrypt) "wrong codename"
                           (scrypt_gpg_pepper demo_self)
                           (scrypt_params demo_self)) in
  ok (gpg_decrypt "ciphertext" passphrase (st_keyring st)) = false /\
  fst (decrypt (H := demo_scrypt) demo_self "wrong codename" "ciphertext" st)
  = Ok "".
Proof. split; reflexivity. Qed.

(** C5. No key carries the name: the lookup answers [None], and
    [export_pubkey] hands that [None] to the engine's export and returns
    what the engine makes of it, where [delete_reply_keypair] stops after
    the same lookup.  No exception tells the caller that there is no
    key. *)
Theorem export_pubkey_missing_key_not_raised :
  let st := demo_state [demo_key] in
  fst (getkey "NOBODY" st) = Ok None /\
  export_pubkey "NOBODY" st =
  (Ok "", add_event (EvExportKeys None) (add_event EvListKeys st)) /\
  delete_reply_keypair "NOBODY" st = (Ok tt, add_event EvListKeys st).
Proof.
  cbn zeta. split; [|split]; vm_compute; reflexivity.
Qed.

(** C6, as stated, fails: two keys carry the name of the source.  The
    first call deletes the first of them and returns normally; the second
    call, far from doing nothing, deletes the other. *)
Lemma delete_reply_keypair_second_call_deletes :
  let st := demo_state [demo_key; demo_twin] in
  let first := delete_reply_keypair "SOURCEID" st in
  let second := delete_reply_keypair "SOURCEID" (snd first) in
  fst first = Ok tt /\
  st_keyring (snd first) = [demo_twin] /\
  fst second = Ok tt /\
  st_keyring (snd second) = [] /\
  st_log (snd second) =
  [EvListKeys; EvDeleteKeys "AAAABBBB" true; EvDeleteKeys "AAAABBBB" false;
   EvListKeys; EvDeleteKeys "CCCCDDDD" true; EvDeleteKeys "CCCCDDDD" false].
Proof.
  cbn zeta. repeat split; vm_compute; reflexivity.
Qed.

(** Deleting the reply key pair of a source that has one, and once more
    afterwards. *)
Lemma delete_reply_keypair_spec_witness :
  getkey_scan "SOURCEID"
    (gpg_list_keys (st_keyring (demo_state [demo_key]))) = Some "AAAABBBB" /\
  "AAAABBBB" <> "" /\
  st_log (snd (delete_reply_keypair "SOURCEID" (demo_state [demo_key]))) =
  [EvListKeys; EvDeleteKeys "AAAABBBB" true; EvDeleteKeys "AAAABBBB" false] /\
  delete_reply_keypair "SOURCEID"
    (snd (delete_reply_keypair "SOURCEID" (demo_state [demo_key]))) =
  (Ok tt,
   add_event EvListKeys
     (snd (delete_reply_keypair "SOURCEID" (demo_state [demo_key])))).
Proof.
  pose proof (delete_reply_keypair_spec "SOURCEID" (demo_state [demo_key]))
    as (_ & Hdel & _ & Hagain).
  assert (getkey_scan "SOURCEID"
            (gpg_list_keys (st_keyring (demo_state [demo_key]))) =
          Some "AAAABBBB") as Hk by reflexivity.
  assert ("AAAABBBB" <> "") as Hne by discriminate.
  split; [exact Hk|]. split; [exact Hne|]. split.
  - exact (proj2 (proj2 (Hdel "AAAABBBB" Hk Hne))).
  - apply Hagain. reflexivity.
Defined.

(** An output path the storage layer rejects. *)
Lemma encrypt_spec_witness :
  Some "/tmp/x" = Some "/tmp/x" /\ "/tmp/x" <> "" /\
  st_verify (demo_state [demo_key]) "/tmp/x" = false /\
  encrypt (PlainStr "hi") (FprSingle "AAAA BBBB") (Some "/tmp/x")
          (demo_state [demo_key]) =
  (Raise (PathException "/tmp/x"),
   add_event (EvVerify "/tmp/x") (demo_state [demo_key])).
Proof.
  assert ("/tmp/x" <> "") as Hne by discriminate.
  assert (st_verify (demo_state [demo_key]) "/tmp/x" = false) as Hv
    by reflexivity.
  split; [reflexivity|]. split; [exact Hne|]. split; [exact Hv|].
  exact (proj1 (encrypt_spec (PlainStr "hi") (FprSingle "AAAA BBBB")
                  (Some "/tmp/x") (demo_state [demo_key]))
           "/tmp/x" eq_refl Hne Hv).
Defined.

(** A locale without a word list of its own. *)
Lemma get_wordlist_spec_witness :
  st_language2words (demo_state []) !! "xx" = None /\
  "xx" <> "en" /\
  st_files (demo_state []) !! locale_wordlist_path demo_self "xx" = None /\
  fst (get_wordlist demo_self "xx" (demo_state [])) = Ok ["apple"; "berry"] /\
  st_log (snd (get_wordlist demo_self "xx" (demo_state []))) =
  [EvExists "/sd/wordlists/xx.txt"; EvOpen "/sd/wordlist"].
Proof.
  pose proof (get_wordlist_spec demo_self "xx" (demo_state []))
    as (_ & _ & Hfallback & _).
  assert (st_language2words (demo_state []) !! "xx" = None) as Hc
    by reflexivity.
  assert ("xx" <> "en") as Hne by discriminate.
  assert (st_files (demo_state []) !! locale_wordlist_path demo_self "xx"
          = None) as Hf by (vm_compute; reflexivity).
  assert (st_files (demo_state []) !! word_list demo_self =
          Some ("apple" ++ String (ascii_of_nat 10) "berry")) as Hd
    by (vm_compute; reflexivity).
  repeat split; try assumption;
    rewrite (Hfallback _ Hc Hne Hf Hd); reflexivity.
Defined.

(** ** Further properties of the module *)

(** *** Substrings and sanitized strings *)

Lemma string_app_cons (x : ascii) (a b : string) :
  String x a ++ b = String x (a ++ b).
Proof. reflexivity. Qed.

Lemma string_app_nil_l (a : string) : "" ++ a = a.
Proof. reflexivity. Qed.

Lemma string_app_assoc (a b c : string) : (a ++ b) ++ c = a ++ b ++ c.
Proof.
  induction a as [|x a IH]; [reflexivity|].
  now rewrite !string_app_cons, IH.
Qed.

Lemma prefix_spec (a b : string) :
  String.prefix a b = true <-> exists post, b = a ++ post.
Proof.
  revert b. induction a as [|x a IH]; intros b.
  - destruct b; cbn; split; eauto.
  - destruct b as [|y b]; cbn.
    + split; [discriminate | intros [post E]; discriminate E].
    + destruct (ascii_dec x y) as [->|Hne].
      * rewrite IH. split; intros [post E]; exists post;
          [now rewrite E | now injection E].
      * split; [discriminate | intros [post E]; injection E; congruence].
Qed.

(** [name in uid]: [uid] is [name] with something before and something
    after it. *)
Lemma str_in_spec (name uid : string) :
  str_in name uid = true <-> exists pre post, uid = pre ++ name ++ post.
Proof.
  induction uid as [|c uid IH].
  - cbn [str_in]. destruct (String.prefix name "") eqn:Hp.
    + split; [intros _|reflexivity].
      apply prefix_spec in Hp as [post E]. exists "", post. exact E.
    + split; [discriminate|]. intros (pre & post & E).
      destruct pre; [|discriminate E]. rewrite string_app_nil_l in E.
      assert (String.prefix name "" = true) as Habs
        by (apply prefix_spec; eauto).
      congruence.
  - cbn [str_in]. destruct (String.prefix name (String c uid)) eqn:Hp.
    + split; [intros _|reflexivity].
      apply prefix_spec in Hp as [post E]. exists "", post. exact E.
    + rewrite IH. split.
      * intros (pre & post & E). exists (String c pre), post.
        now rewrite string_app_cons, E.
      * intros (pre & post & E). destruct pre as [|d pre].
        -- rewrite string_app_nil_l in E.
           assert (String.prefix name (String c uid) = true) as Habs
             by (apply prefix_spec; eauto).
           congruence.
        -- rewrite string_app_cons in E. injection E as _ E. eauto.
Qed.

Lemma str_in_trans (a b c : string) :
  str_in a b = true -> str_in b c = true -> str_in a c = true.
Proof.
  rewrite !str_in_spec. intros (p1 & s1 & ->) (p2 & s2 & ->).
  exists (p2 ++ p1), (s1 ++ s2).
  now rewrite !string_app_assoc.
Qed.

Lemma all_allowed_forallb (s also : string) :
  all_allowed s also =
  forallb (fun c => char_in c DICEWARE_SAFE_CHARS || char_in c also)
          (list_ascii_of_string s).
Proof.
  induction s as [|c s IH]; [reflexivity|].
  cbn [all_allowed list_ascii_of_string forallb]. rewrite IH.
  destruct (char_in c DICEWARE_SAFE_CHARS), (char_in c also); reflexivity.
Qed.

Lemma all_allowed_app (s t also : string) :
  all_allowed (s ++ t) also = all_allowed s also && all_allowed t also.
Proof.
  induction s as [|c s IH]; [reflexivity|].
  rewrite string_app_cons. cbn [all_allowed]. rewrite IH.
  destruct (negb (char_in c DICEWARE_SAFE_CHARS) && negb (char_in c also));
    reflexivity.
Qed.

Lemma clean_ok (s also : string) :
  clean s also = Ok s <-> all_allowed s also = true.
Proof.
  unfold clean. destruct (all_allowed s also); split; congruence.
Qed.

Lemma all_allowed_join (words : list string) (also : string) :
  all_allowed (String.concat " " words) also =
  forallb (fun w => all_allowed w also) words.
Proof.
  induction words as [|w [|w' words] IH]; [reflexivity| |].
  - cbn. now rewrite andb_true_r.
  - change (String.concat " " (w :: w' :: words))
      with (w ++ " " ++ String.concat " " (w' :: words)).
    rewrite !all_allowed_app, IH. reflexivity.
Qed.

(** X1. [' '.join(words)] passes [clean] exactly when every word does:
    the separator is a safe character. *)
Theorem clean_join (words : list string) (also : string) :
  clean (String.concat " " words) also = Ok (String.concat " " words) <->
  forall w, In w words -> clean w also = Ok w.
Proof.
  rewrite clean_ok, all_allowed_join, forallb_forall.
  split; intros Hall w Hw; apply clean_ok, Hall, Hw.
Qed.

(** *** Base32 output *)

Lemma b32_sym_safe b4 b3 b2 b1 b0 :
  char_in (b32_sym b4 b3 b2 b1 b0) DICEWARE_SAFE_CHARS = true.
Proof. destruct b4, b3, b2, b1, b0; reflexivity. Qed.

Lemma b32encode_list_safe (l : list ascii) :
  forallb (fun c => char_in c DICEWARE_SAFE_CHARS) (b32encode_list l) = true.
Proof.
  induction l as [|a|a b|a b c|a b c d|a b c d e l IH] using list_ind5;
    try reflexivity;
    repeat match goal with x : ascii |- _ => destruct x end;
    cbn -[b32_sym char_in DICEWARE_SAFE_CHARS];
    rewrite ?b32_sym_safe; try reflexivity.
  cbn -[b32_sym char_in DICEWARE_SAFE_CHARS] in IH. exact IH.
Qed.

Lemma b32encode_allowed (s : string) : all_allowed (b32encode s) "" = true.
Proof.
  rewrite all_allowed_forallb. unfold b32encode.
  rewrite list_ascii_of_string_of_list_ascii.
  pose proof (b32encode_list_safe (list_ascii_of_string s)) as Hs.
  rewrite forallb_forall in Hs. apply forallb_forall. intros c Hc.
  rewrite (Hs c Hc). reflexivity.
Qed.

Lemma length_string_of_list_ascii (l : list ascii) :
  String.length (string_of_list_ascii l) = length l.
Proof. induction l as [|c l IH]; cbn; [reflexivity | now rewrite IH]. Qed.

Lemma length_list_ascii_of_string (s : string) :
  length (list_ascii_of_string s) = String.length s.
Proof. induction s as [|c s IH]; cbn; [reflexivity | now rewrite IH]. Qed.

Lemma b32encode_list_length (l : list ascii) :
  length (b32encode_list l) = 8 * ((length l + 4) / 5).
Proof.
  induction l as [|a|a b|a b c|a b c d|a b c d e l IH] using list_ind5;
    try reflexivity;
    repeat match goal with x : ascii |- _ => destruct x end;
    try reflexivity.
  change (length (b32encode_list (_ :: _ :: _ :: _ :: _ :: l)))
    with (8 + length (b32encode_list l)).
  rewrite IH. cbn [length].
  replace (S (S (S (S (S (length l))))) + 4) with (length l + 4 + 1 * 5) by lia.
  rewrite Nat.div_add by lia. lia.
Qed.

Lemma b32encode_length (s : string) :
  String.length (b32encode s) = 8 * ((String.length s + 4) / 5).
Proof.
  unfold b32encode.
  now rewrite length_string_of_list_ascii, b32encode_list_length,
    length_list_ascii_of_string.
Qed.

(** *** Looking keys up by name *)

Section KeyLookup.
Context {G : Type} `{!GnuPG G}.

Lemma getkey_scan_first (name fpr : string) (keys : list GpgKey) :
  getkey_scan name keys = Some fpr ->
  exists before key after,
    keys = (before ++ key :: after)%list /\ fingerprint key = fpr /\
    existsb (str_in name) (uids key) = true /\
    getkey_scan name before = None.
Proof.
  induction keys as [|key keys IH]; cbn; [discriminate|].
  destruct (existsb (str_in name) (uids key)) eqn:Hex.
  - intros [= <-]. exists [], key, keys. auto.
  - intros Hrest. destruct (IH Hrest) as (before & k & after & -> & ? & ? & Hb).
    exists (key :: before), k, after. cbn. rewrite Hex. auto.
Qed.

(** X2. [getkey] only lists the keys.  It answers [None] exactly when no
    user id of a listed key contains the name as a substring; otherwise
    it answers with the fingerprint of the first listed key that has such
    a user id. *)
Theorem getkey_first_match (name : string) (st : State G) :
  let keys := gpg_list_keys (st_keyring st) in
  let r := getkey name st in
  snd r = add_event EvListKeys st /\
  (fst r = Ok None <->
   forall key uid pre post,
     In key keys -> In uid (uids key) -> uid <> pre ++ name ++ post) /\
  (forall fpr,
     fst r = Ok (Some fpr) ->
     exists before key after uid pre post,
       keys = (before ++ key :: after)%list /\ fingerprint key = fpr /\
       In uid (uids key) /\ uid = pre ++ name ++ post /\
       forall k u pre' post',
         In k before -> In u (uids k) -> u <> pre' ++ name ++ post').
Proof.
  cbn zeta. rewrite getkey_run. cbn [fst snd].
  split; [reflexivity|]. split.
  - split.
    + intros [= Hnone] key uid pre post Hk Hu E.
      pose proof (proj1 (getkey_scan_none name _) Hnone key uid Hk Hu) as Hf.
      assert (str_in name uid = true) as Ht by (apply str_in_spec; eauto).
      congruence.
    + intros Hall. f_equal. apply getkey_scan_none. intros key uid Hk Hu.
      destruct (str_in name uid) eqn:E; [|reflexivity].
      apply str_in_spec in E as (pre & post & E).
      exfalso. exact (Hall key uid pre post Hk Hu E).
  - intros fpr [= Hsome].
    destruct (getkey_scan_first _ _ _ Hsome)
      as (before & key & after & Hkeys & Hfpr & Hex & Hb).
    apply existsb_exists in Hex as (uid & Hu & Hin).
    apply str_in_spec in Hin as (pre & post & E).
    exists before, key, after, uid, pre, post.
    split; [exact Hkeys|]. split; [exact Hfpr|]. split; [exact Hu|].
    split; [exact E|].
    intros k u pre' post' Hk Hku E'.
    pose proof (proj1 (getkey_scan_none name _) Hb k u Hk Hku) as Hf.
    assert (str_in name u = true) as Ht by (apply str_in_spec; eauto).
    congruence.
Qed.

(** X3. A name that is part of another name finds a key wherever the
    longer name finds one: the lookup is by substring, so the key it
    returns may belong to the longer name. *)
Theorem getkey_part_of_name (name pre post : string) (st : State G)
    (fpr : string) :
  fst (getkey (pre ++ name ++ post) st) = Ok (Some fpr) ->
  exists fpr', fst (getkey name st) = Ok (Some fpr').
Proof.
  rewrite !getkey_run. cbn [fst]. intros [= Hsome].
  destruct (getkey_scan name (gpg_list_keys (st_keyring st))) as [fpr'|] eqn:E;
    [eauto|].
  exfalso.
  apply getkey_scan_some in Hsome as (key & uid & Hk & _ & Hu & Hin).
  pose proof (proj1 (getkey_scan_none name _) E key uid Hk Hu) as Hf.
  assert (str_in name (pre ++ name ++ post) = true) as Hpart
    by (apply str_in_spec; eauto).
  rewrite (str_in_trans _ _ _ Hpart Hin) in Hf. discriminate.
Qed.
End KeyLookup.

(** *** Key pairs and passphrases *)

Section KeyGeneration.
Context {G : Type} `{!Scrypt} `{!GnuPG G}.
Variable self : CryptoUtil.

Lemma genkeypair_run (name secret : string) (st : State G) :
  clean name "" = Ok name ->
  clean secret "" = Ok secret ->
  let passphrase :=
    b32encode (scrypt_hash secret (scrypt_gpg_pepper self)
                           (scrypt_params self)) in
  let st1 := add_event (EvGenKey GPG_KEY_TYPE (gpg_key_length self)
                                 passphrase name)
               (add_event (EvScrypt secret (scrypt_gpg_pepper self)
                                    (scrypt_params self)) st) in
  let r := gpg_gen_key GPG_KEY_TYPE (gpg_key_length self) passphrase name
                       (st_keyring st) in
  genkeypair self name secret st = (Ok (fst r), set_keyring (snd r) st1).
Proof.
  intros Hn Hs. cbn zeta. unfold genkeypair, bind, lift. rewrite Hn.
  rewrite hash_codename_run by exact Hs. reflexivity.
Qed.

(** X4. [genkeypair] checks the name first and the codename second, and
    either failure leaves before scrypt or the engine is asked.  With
    both accepted, the engine generates one key of type RSA and of the
    object's key length, for the name, protected by the base32 form of
    the scrypt hash of the codename under the key-encryption pepper; the
    new fingerprint is returned and the keyring is the engine's. *)
Theorem genkeypair_spec (name secret : string) (st : State G) :
  (clean name "" <> Ok name ->
   genkeypair self name secret st =
   (Raise (CryptoException ("invalid input: " ++ name)), st)) /\
  (clean name "" = Ok name -> clean secret "" <> Ok secret ->
   genkeypair self name secret st =
   (Raise (CryptoException ("invalid input: " ++ secret)), st)) /\
  (clean name "" = Ok name -> clean secret "" = Ok secret ->
   let passphrase :=
     b32encode (scrypt_hash secret (scrypt_gpg_pepper self)
                            (scrypt_params self)) in
   let r := gpg_gen_key GPG_KEY_TYPE (gpg_key_length self) passphrase name
                        (st_keyring st) in
   fst (genkeypair self name secret st) = Ok (fst r) /\
   st_keyring (snd (genkeypair self name secret st)) = snd r /\
   st_log (snd (genkeypair self name secret st)) =
   (st_log st ++
    [EvScrypt secret (scrypt_gpg_pepper self) (scrypt_params self);
     EvGenKey "RSA" (gpg_key_length self) passphrase name])%list).
Proof.
  split; [|split].
  - intros Hn. unfold genkeypair, bind, lift. revert Hn. unfold clean.
    destruct (all_allowed name ""); [congruence | reflexivity].
  - intros Hn Hs. unfold genkeypair, bind, lift. rewrite Hn.
    rewrite hash_codename_invalid by exact Hs. reflexivity.
  - intros Hn Hs. cbn zeta. rewrite genkeypair_run by assumption.
    cbn [fst snd]. split; [reflexivity|]. split; [reflexivity|].
    rewrite log_set_keyring, !log_add_event, <- app_assoc. reflexivity.
Qed.

(** X5. The passphrase under which [genkeypair] has the private key
    protected is the passphrase [decrypt] hands to the engine for the
    same codename, whatever the name, the ciphertext and the states of
    the two calls; it is derived with the key-encryption pepper in both. *)
Theorem genkeypair_decrypt_passphrase (name secret ciphertext : string)
    (st st' : State G) :
  clean name "" = Ok name ->
  clean secret "" = Ok secret ->
  exists passphrase,
    st_log (snd (genkeypair self name secret st)) =
    (st_log st ++
     [EvScrypt secret (scrypt_gpg_pepper self) (scrypt_params self);
      EvGenKey GPG_KEY_TYPE (gpg_key_length self) passphrase name])%list /\
    st_log (snd (decrypt self secret ciphertext st')) =
    (st_log st' ++
     [EvScrypt secret (scrypt_gpg_pepper self) (scrypt_params self);
      EvDecrypt ciphertext passphrase])%list.
Proof.
  intros Hn Hs.
  exists (b32encode (scrypt_hash secret (scrypt_gpg_pepper self)
                                 (scrypt_params self))).
  rewrite genkeypair_run, decrypt_run by assumption. cbn [snd].
  rewrite log_set_keyring, !log_add_event, <- !app_assoc. split; reflexivity.
Qed.

(** X6. What [hash_codename] returns passes [clean], as the comment on
    [DICEWARE_SAFE_CHARS] says: it is eight base32 characters for every
    five bytes of scrypt output, the last group filled up. *)
Theorem hash_codename_output (codename : string) (salt : option string)
    (st st' : State G) (h : string) :
  hash_codename self codename salt st = (Ok h, st') ->
  clean h "" = Ok h /\
  String.length h =
  8 * ((String.length
          (scrypt_hash codename (default (scrypt_id_pepper self) salt)
                       (scrypt_params self)) + 4) / 5).
Proof.
  destruct (all_allowed codename "") eqn:Hc.
  - rewrite hash_codename_run by (apply clean_ok, Hc). intros [= <- _].
    split; [apply clean_ok, b32encode_allowed | apply b32encode_length].
  - rewrite hash_codename_invalid; [discriminate|].
    rewrite clean_ok. congruence.
Qed.

(** X7. The identity hash of a codename is a name [genkeypair] accepts:
    [genkeypair(hash_codename(c), c)] raises nothing when [c] is a valid
    codename. *)
Theorem genkeypair_accepts_identity_hash (codename name : string)
    (st0 st1 st : State G) :
  hash_codename self codename None st0 = (Ok name, st1) ->
  exists fpr, fst (genkeypair self name codename st) = Ok fpr.
Proof.
  intros Hh.
  assert (clean name "" = Ok name) as Hn.
  { destruct (all_allowed codename "") eqn:Hc.
    - rewrite hash_codename_run in Hh by (apply clean_ok, Hc).
      injection Hh as <- _. apply clean_ok, b32encode_allowed.
    - rewrite hash_codename_invalid in Hh; [discriminate|].
      rewrite clean_ok. congruence. }
  assert (clean codename "" = Ok codename) as Hc.
  { destruct (all_allowed codename "") eqn:Hc; [apply clean_ok, Hc|].
    rewrite hash_codename_invalid in Hh; [discriminate|].
    rewrite clean_ok. congruence. }
  rewrite genkeypair_run by assumption. cbn [fst]. eauto.
Qed.

(** X8. [decrypt] raises exactly when [clean] rejects the codename, and
    then the engine has not been asked and nothing has changed.  No
    answer of the engine makes it raise. *)
Theorem decrypt_raises_iff (secret ciphertext : string) (st : State G) :
  ((exists e, fst (decrypt self secret ciphertext st) = Raise e) <->
   clean secret "" <> Ok secret) /\
  (clean secret "" <> Ok secret ->
   decrypt self secret ciphertext st =
   (Raise (CryptoException ("invalid input: " ++ secret)), st)).
Proof.
  assert (clean secret "" <> Ok secret ->
          decrypt self secret ciphertext st =
          (Raise (CryptoException ("invalid input: " ++ secret)), st)) as Hbad.
  { intros Hs. unfold decrypt, bind.
    rewrite hash_codename_invalid by exact Hs. reflexivity. }
  split; [|exact Hbad]. split.
  - intros [e He] Hs. rewrite decrypt_run in He by exact Hs. discriminate He.
  - intros Hs. rewrite (Hbad Hs). eauto.
Qed.

(** X10. Two codenames that [clean] accepts get the same hash exactly
    when scrypt gives the same raw output for them under the salts used:
    the base32 form adds no collision. *)
Theorem hash_codename_equal_iff (c1 c2 : string) (salt1 salt2 : option string)
    (st1 st2 : State G) :
  clean c1 "" = Ok c1 ->
  clean c2 "" = Ok c2 ->
  fst (hash_codename self c1 salt1 st1) =
  fst (hash_codename self c2 salt2 st2) <->
  scrypt_hash c1 (default (scrypt_id_pepper self) salt1) (scrypt_params self) =
  scrypt_hash c2 (default (scrypt_id_pepper self) salt2) (scrypt_params self).
Proof.
  intros H1 H2. rewrite !hash_codename_run by assumption. cbn [fst]. split.
  - intros [= E]. apply b32encode_inj, E.
  - intros ->. reflexivity.
Qed.
End KeyGeneration.

(** *** Construction *)

Section ConstructionOutcome.
Context {G : Type}.
Variables (params : ScryptParams).
Variables (id_pepper gpg_pepper root wordlist nouns_file adjectives_file
           gpg_key_dir : string).

(** The run of a construction that passes the pepper check and finds
    [srm]. *)
Lemma init_run (st : State G) :
  id_pepper <> gpg_pepper ->
  st_srm st <> SrmNotInstalled ->
  let st3 := set_language2words ∅
               (add_event (EvGpgInit "gpg2" gpg_key_dir)
                  (add_event EvSrm
                     (add_event (EvEnviron "SECUREDROP_ENV") st))) in
  __init__ params id_pepper gpg_pepper root wordlist nouns_file
           adjectives_file gpg_key_dir st =
  match st_files st !! nouns_file with
  | None => (Raise (IOError nouns_file), add_event (EvOpen nouns_file) st3)
  | Some nouns_text =>
      let st4 := add_event (EvOpen adjectives_file)
                   (add_event (EvOpen nouns_file) st3) in
      match st_files st !! adjectives_file with
      | None => (Raise (IOError adjectives_file), st4)
      | Some adjectives_text =>
          let test :=
            bool_decide (st_environ st !! "SECUREDROP_ENV" = Some "test") in
          (Ok {| securedrop_root := root;
                 word_list := wordlist;
                 gpg_key_length := if test then 1024%Z else 4096%Z;
                 scrypt_params :=
                   if test then test_scrypt_params else params;
                 scrypt_id_pepper := id_pepper;
                 scrypt_gpg_pepper := gpg_pepper;
                 nouns := splitlines (universal_newlines nouns_text);
                 adjectives :=
                   splitlines (universal_newlines adjectives_text) |},
           st4)
      end
  end.
Proof.
  intros Hne Hsrm. unfold __init__, do_runtime_tests. run.
  destruct (String.eqb_spec id_pepper gpg_pepper) as [|_]; [contradiction|].
  cbn.
  destruct (st_srm st) as [[| |]|]; [| | |contradiction]; cbn;
    (destruct (st_files st !! nouns_file); cbn; [|reflexivity]);
    (destruct (st_files st !! adjectives_file); cbn; reflexivity).
Qed.

Lemma init_without_srm (st : State G) :
  id_pepper <> gpg_pepper ->
  st_srm st = SrmNotInstalled ->
  __init__ params id_pepper gpg_pepper root wordlist nouns_file
           adjectives_file gpg_key_dir st =
  (Raise (OSError "srm"),
   add_event EvSrm (add_event (EvEnviron "SECUREDROP_ENV") st)).
Proof.
  intros Hne Hsrm. unfold __init__, do_runtime_tests. run.
  destruct (String.eqb_spec id_pepper gpg_pepper) as [|_]; [contradiction|].
  cbn. rewrite Hsrm. reflexivity.
Qed.

Lemma init_collision (st : State G) :
  id_pepper = gpg_pepper ->
  __init__ params id_pepper gpg_pepper root wordlist nouns_file
           adjectives_file gpg_key_dir st =
  (Raise pepper_collision, add_event (EvEnviron "SECUREDROP_ENV") st).
Proof.
  intros Heq. unfold __init__, do_runtime_tests. run.
  destruct (String.eqb_spec id_pepper gpg_pepper) as [_|]; [|contradiction].
  reflexivity.
Qed.

Lemma srm_outcome_cases (o : SrmOutcome) :
  o = SrmNotInstalled \/ o <> SrmNotInstalled.
Proof. destruct o; [right; discriminate | left; reflexivity]. Qed.

(** X11. With different peppers, the constructor raises [OSError] when
    [srm] cannot be started, and then it has only read the environment
    and tried [srm]: the engine is not set up and no file is opened.
    When [srm] can be started, whatever its exit status, the constructor
    goes on to set the engine up. *)
Theorem init_srm_probe (st : State G) :
  id_pepper <> gpg_pepper ->
  let r := __init__ params id_pepper gpg_pepper root wordlist nouns_file
                    adjectives_file gpg_key_dir st in
  (st_srm st = SrmNotInstalled ->
   r = (Raise (OSError "srm"),
        add_event EvSrm (add_event (EvEnviron "SECUREDROP_ENV") st))) /\
  (forall code,
     st_srm st = SrmExit code ->
     exists evs,
       st_log (snd r) =
       (st_log st ++
        [EvEnviron "SECUREDROP_ENV"; EvSrm; EvGpgInit "gpg2" gpg_key_dir] ++
        evs)%list).
Proof.
  intros Hne. cbn zeta. split.
  - intros Hsrm. exact (init_without_srm st Hne Hsrm).
  - intros code Hcode.
    assert (st_srm st <> SrmNotInstalled) as Hsrm by (rewrite Hcode; discriminate).
    rewrite (init_run st Hne Hsrm).
    destruct (st_files st !! nouns_file) as [tn|];
      [destruct (st_files st !! adjectives_file) as [ta|]|]; cbn [snd];
      rewrite ?log_add_event, log_set_language2words, !log_add_event,
        <- !app_assoc; eexists; cbn [app]; reflexivity.
Qed.

Lemma splitlines_chars (s w : string) (c : ascii) :
  In w (splitlines s) -> In c (list_ascii_of_string w) ->
  In c (list_ascii_of_string s) /\ is_linebreak c = false.
Proof.
  revert w. induction s as [|d s IH]; intros w; cbn [splitlines];
    [intros []|].
  destruct (is_linebreak d) eqn:Hd.
  - intros [<-|Hw] Hc; [destruct Hc|].
    destruct (IH w Hw Hc). split; [right|]; assumption.
  - destruct (splitlines s) as [|l ls] eqn:Hs.
    + intros [<-|[]] [<-|[]]. split; [left; reflexivity | exact Hd].
    + intros [<-|Hw] Hc.
      * destruct Hc as [<-|Hc]; [split; [left; reflexivity | exact Hd]|].
        destruct (IH l (or_introl eq_refl) Hc). split; [right|]; assumption.
      * destruct (IH w (or_intror Hw) Hc). split; [right|]; assumption.
Qed.

Lemma universal_newlines_no_cr (s : string) :
  ~ In (ascii_of_nat 13) (list_ascii_of_string (universal_newlines s)).
Proof.
  assert (forall n s, String.length s <= n ->
            ~ In (ascii_of_nat 13)
                 (list_ascii_of_string (universal_newlines s))) as Hn.
  { clear s. induction n as [|n IH]; intros s Hs.
    - destruct s; [intros [] | cbn in Hs; lia].
    - destruct s as [|c s]; [intros []|]. cbn [universal_newlines].
      cbn in Hs.
      destruct (Ascii.eqb_spec c (ascii_of_nat 13)) as [->|Hc].
      + destruct s as [|d s].
        * intros [E|[]]. discriminate E.
        * cbn in Hs. destruct (Ascii.eqb d (ascii_of_nat 10)).
          -- intros [E|Hin]; [discriminate E|].
             apply (IH s) in Hin; [exact Hin | lia].
          -- intros [E|Hin]; [discriminate E|].
             apply (IH (String d s)) in Hin; [exact Hin | cbn; lia].
      + intros [E|Hin]; [congruence|].
        apply (IH s) in Hin; [exact Hin | lia]. }
  apply (Hn (String.length s)). lia.
Qed.

(** The characters of the nouns and adjectives of a constructed
    object. *)
Lemma init_word_chars (st st' : State G) (self : CryptoUtil)
    (w : string) (c : ascii) :
  __init__ params id_pepper gpg_pepper root wordlist nouns_file
           adjectives_file gpg_key_dir st = (Ok self, st') ->
  In w (nouns self) \/ In w (adjectives self) ->
  In c (list_ascii_of_string w) ->
  is_linebreak c = false /\ c <> ascii_of_nat 13.
Proof.
  intros Hinit Hw Hc.
  destruct (decide (id_pepper = gpg_pepper)) as [Heq|Hne];
    [rewrite (init_collision st Heq) in Hinit; discriminate|].
  destruct (srm_outcome_cases (st_srm st)) as [Hsrm|Hsrm];
    [rewrite (init_without_srm st Hne Hsrm) in Hinit; discriminate|].
  rewrite (init_run st Hne Hsrm) in Hinit.
  destruct (st_files st !! nouns_file) as [tn|]; [|discriminate].
  destruct (st_files st !! adjectives_file) as [ta|]; [|discriminate].
  cbn zeta in Hinit. injection Hinit as <- _. cbn [nouns adjectives] in Hw.
  destruct Hw as [Hw|Hw]; destruct (splitlines_chars _ _ _ Hw Hc) as [Hin Hlb];
    (split; [exact Hlb|]); intros ->;
    exact (universal_newlines_no_cr _ Hin).
Qed.

(** X12. The keys of an object built in the test environment have 1024
    bits and its passphrases come from the cheap scrypt parameters; the
    keys of every other object have 4096 bits and its passphrases come
    from the configured parameters. *)
Theorem genkeypair_key_length `{!Scrypt} `{!GnuPG G} (st st' st0 : State G)
    (self : CryptoUtil) (name secret : string) :
  __init__ params id_pepper gpg_pepper root wordlist nouns_file
           adjectives_file gpg_key_dir st = (Ok self, st') ->
  clean name "" = Ok name ->
  clean secret "" = Ok secret ->
  let test := bool_decide (st_environ st !! "SECUREDROP_ENV" = Some "test") in
  let cost := if test then test_scrypt_params else params in
  st_log (snd (genkeypair self name secret st0)) =
  (st_log st0 ++
   [EvScrypt secret gpg_pepper cost;
    EvGenKey "RSA" (if test then 1024%Z else 4096%Z)
             (b32encode (scrypt_hash secret gpg_pepper cost)) name])%list.
Proof.
  intros Hinit Hn Hs. cbn zeta.
  destruct (init_ok params id_pepper gpg_pepper root wordlist nouns_file
              adjectives_file gpg_key_dir st st' self Hinit)
    as (_ & Hp & Hl & _ & Hg).
  rewrite genkeypair_run by assumption. cbn [snd].
  rewrite log_set_keyring, !log_add_event, <- app_assoc.
  rewrite Hp, Hl, Hg. reflexivity.
Qed.
End ConstructionOutcome.

(** *** The word list cache *)

Section WordListCache.
Context {G : Type}.
Variable self : CryptoUtil.

(** The run of [get_wordlist] for a locale that is not cached, given the
    file it settles on. *)
Lemma get_wordlist_uncached (locale : string) (st : State G) :
  st_language2words st !! locale = None ->
  exists path st1,
    (st1 = st \/ st1 = add_event (EvExists (locale_wordlist_path self locale)) st) /\
    (path = word_list self \/
     path = locale_wordlist_path self locale /\
     is_Some (st_files st !! path)) /\
    get_wordlist self locale st =
    match st_files st !! path with
    | Some text =>
        let content := splitlines (universal_newlines text) in
        (Ok content,
         set_language2words (<[locale := content]> (st_language2words st))
           (add_event (EvOpen path) st1))
    | None => (Raise (IOError path), add_event (EvOpen path) st1)
    end.
Proof.
  intros Hc. unfold get_wordlist. run. rewrite Hc.
  destruct (negb (locale =? "en")%string); cbn.
  - case_bool_decide as Hex; cbn.
    + exists (locale_wordlist_path self locale),
        (add_event (EvExists (locale_wordlist_path self locale)) st).
      split; [auto|]. split; [auto|].
      destruct (st_files st !! locale_wordlist_path self locale);
        reflexivity.
    + exists (word_list self),
        (add_event (EvExists (locale_wordlist_path self locale)) st).
      split; [auto|]. split; [auto|].
      destruct (st_files st !! word_list self); reflexivity.
  - exists (word_list self), st. split; [auto|]. split; [auto|].
    destruct (st_files st !! word_list self); reflexivity.
Qed.

(** X13. [get_wordlist] never changes what the cache holds: the entry of
    every other locale stays as it is, and a word list once cached for
    the locale stays the same.  It touches neither the keyring nor the
    files. *)
Theorem get_wordlist_keeps_cache (locale : string) (st : State G) :
  let st' := snd (get_wordlist self locale st) in
  (forall other,
     other <> locale ->
     st_language2words st' !! other = st_language2words st !! other) /\
  (forall words,
     st_language2words st !! locale = Some words ->
     st_language2words st' !! locale = Some words) /\
  st_keyring st' = st_keyring st /\
  st_files st' = st_files st.
Proof.
  cbn zeta.
  destruct (st_language2words st !! locale) as [ws|] eqn:Hc.
  - rewrite (get_wordlist_cached self locale ws st Hc). cbn [snd].
    split; [reflexivity|]. split; [|split; reflexivity].
    intros words [= <-]. exact Hc.
  - destruct (get_wordlist_uncached locale st Hc)
      as (path & st1 & Hst1 & _ & ->).
    destruct (st_files st !! path) as [text|]; cbn [snd].
    + split; [|split; [intros ? [=]|]].
      * intros other Hne. cbn. apply lookup_insert_ne. congruence.
      * destruct Hst1 as [->| ->]; cbn; auto.
    + split; [|split; [intros ? [=]|]].
      * intros other _. destruct Hst1 as [->| ->]; reflexivity.
      * destruct Hst1 as [->| ->]; cbn; auto.
Qed.

(** X14. When the locale is not cached and the file [get_wordlist]
    settles on, the default word list, cannot be read, the call raises
    the [IOError] of that file and caches nothing, so that the next call
    tries again. *)
Theorem get_wordlist_unreadable (locale : string) (st : State G) :
  st_language2words st !! locale = None ->
  st_files st !! word_list self = None ->
  locale = "en" \/ st_files st !! locale_wordlist_path self locale = None ->
  fst (get_wordlist self locale st) = Raise (IOError (word_list self)) /\
  st_language2words (snd (get_wordlist self locale st)) =
  st_language2words st.
Proof.
  intros Hc Hd Hl. unfold get_wordlist. run. rewrite Hc.
  destruct (String.eqb_spec locale "en") as [->|Hne]; cbn.
  - rewrite Hd. cbn. auto.
  - destruct Hl as [->|Hl]; [contradiction|].
    rewrite Hl. cbn. rewrite Hd. cbn. auto.
Qed.
End WordListCache.

(** *** Random identifiers *)

Section RandomIdentifiers.
Context {G : Type}.
Variable self : CryptoUtil.
Variable draws : nat -> Draw.

Lemma random_choice_nonempty (d : Draw) (l : list string) :
  l <> [] ->
  random_choice d l = Some (nth (pick d (length l)) l "") /\
  In (nth (pick d (length l)) l "") l.
Proof.
  intros Hne. assert (pick d (length l) < length l) as Hlt.
  { apply pick_lt. destruct l; [contradiction | cbn; lia]. }
  split; [apply nth_error_nth', Hlt | apply nth_In, Hlt].
Qed.

Lemma random_choice_empty (d : Draw) : random_choice d [] = None.
Proof. unfold random_choice. destruct (pick d (length [])); reflexivity. Qed.

(** The iterations once the word list is in the cache. *)
Lemma genrandomid_words_cached (locale : string) (words : list string)
    (st : State G) :
  st_language2words st !! locale = Some words ->
  words <> [] ->
  forall n x,
    genrandomid_words self draws locale x n st =
    (Picked (map (fun k => nth (pick (draws k) (length words)) words "")
                 (seq x n)), st).
Proof.
  intros Hc Hne. induction n as [|n IH]; intros x; [reflexivity|].
  cbn [genrandomid_words seq map].
  rewrite (get_wordlist_cached self locale words st Hc).
  rewrite (proj1 (random_choice_nonempty (draws x) words Hne)).
  rewrite IH. reflexivity.
Qed.

(** The iterations from a state in which the first one loads the word
    list. *)
Lemma genrandomid_words_loaded (locale : string) (words : list string)
    (st st1 : State G) :
  get_wordlist self locale st = (Ok words, st1) ->
  words <> [] ->
  forall n x,
    genrandomid_words self draws locale x (S n) st =
    (Picked (map (fun k => nth (pick (draws k) (length words)) words "")
                 (seq x (S n))), st1).
Proof.
  intros Hget Hne n x. cbn [genrandomid_words seq map]. rewrite Hget.
  rewrite (proj1 (random_choice_nonempty (draws x) words Hne)).
  rewrite (genrandomid_words_cached locale words st1
             (get_wordlist_caches self locale words st st1 Hget) Hne).
  reflexivity.
Qed.

Lemma genrandomid_unfold (count : option Z) (locale : option string)
    (st : State G) :
  genrandomid self draws count locale st =
  match genrandomid_words self draws (default "en" locale) 0
          (Z.to_nat (default DEFAULT_WORDS_IN_RANDOM_ID count)) st with
  | (Picked words, st') => (Picked (String.concat " " words), st')
  | (ModuleError e, st') => (ModuleError e, st')
  | (IndexError, st') => (IndexError, st')
  end.
Proof. destruct count, locale; reflexivity. Qed.

(** X15. For a positive number of words (eight when none is given) and a
    word list that is not empty, [genrandomid] returns that many words
    of the locale's word list (of [en] when none is given), joined by
    single spaces: the word of each iteration is the one its draw
    points at.  The state afterwards is the one after loading the word
    list once. *)
Theorem genrandomid_spec (count : option Z) (locale : option string)
    (words : list string) (st st1 : State G) :
  let n := Z.to_nat (default DEFAULT_WORDS_IN_RANDOM_ID count) in
  0 < n ->
  get_wordlist self (default "en" locale) st = (Ok words, st1) ->
  words <> [] ->
  exists ids,
    genrandomid self draws count locale st =
    (Picked (String.concat " " ids), st1) /\
    length ids = n /\
    (forall k, k < n ->
       nth_error ids k =
       Some (nth (pick (draws k) (length words)) words "")) /\
    (forall w, In w ids -> In w words).
Proof.
  cbn zeta. intros Hn Hget Hne. rewrite genrandomid_unfold.
  destruct (Z.to_nat (default DEFAULT_WORDS_IN_RANDOM_ID count)) as [|n];
    [lia|].
  rewrite (genrandomid_words_loaded _ words st st1 Hget Hne).
  eexists. split; [reflexivity|]. split; [|split].
  - now rewrite length_map, length_seq.
  - intros k Hk.
    rewrite nth_error_map, nth_error_seq.
    destruct (Nat.ltb_spec k (S n)); [reflexivity | lia].
  - intros w Hw. apply in_map_iff in Hw as (k & <- & _).
    apply random_choice_nonempty, Hne.
Qed.

(** X16. Asked for no words, or for a negative number of them,
    [genrandomid] returns the empty string and does not even look for
    the word list. *)
Theorem genrandomid_no_words (n : Z) (locale : option string)
    (st : State G) :
  (n <= 0)%Z ->
  genrandomid self draws (Some n) locale st = (Picked "", st).
Proof.
  intros Hn. rewrite genrandomid_unfold.
  destruct n as [|p|p]; [reflexivity | lia | reflexivity].
Qed.

(** X17. Asked for at least one word, [genrandomid] passes on the
    exception of [get_wordlist] when the word list cannot be read, and
    raises [IndexError] when the word list is empty. *)
Theorem genrandomid_failure (count : option Z) (locale : option string)
    (st st1 : State G) :
  0 < Z.to_nat (default DEFAULT_WORDS_IN_RANDOM_ID count) ->
  (forall e,
     get_wordlist self (default "en" locale) st = (Raise e, st1) ->
     genrandomid self draws count locale st = (ModuleError e, st1)) /\
  (get_wordlist self (default "en" locale) st = (Ok [], st1) ->
   genrandomid self draws count locale st = (IndexError, st1)).
Proof.
  intros Hn. rewrite genrandomid_unfold.
  destruct (Z.to_nat (default DEFAULT_WORDS_IN_RANDOM_ID count)) as [|n];
    [lia|].
  cbn [genrandomid_words]. split.
  - intros e ->. reflexivity.
  - intros ->. rewrite random_choice_empty. reflexivity.
Qed.

(** X18. When every word of the word list passes [clean], so does every
    identifier [genrandomid] returns, and [hash_codename] accepts it as a
    codename. *)
Theorem genrandomid_accepted `{!Scrypt} (count : option Z)
    (locale : option string) (words : list string) (id : string)
    (st st1 st2 : State G) :
  get_wordlist self (default "en" locale) st = (Ok words, st1) ->
  (forall w, In w words -> clean w "" = Ok w) ->
  genrandomid self draws count locale st = (Picked id, st2) ->
  clean id "" = Ok id /\
  exists h, fst (hash_codename self id None st2) = Ok h.
Proof.
  intros Hget Hwords Hid.
  assert (clean id "" = Ok id) as Hclean.
  { rewrite genrandomid_unfold in Hid.
    destruct (Z.to_nat (default DEFAULT_WORDS_IN_RANDOM_ID count)) as [|n].
    - cbn in Hid. injection Hid as <- _. reflexivity.
    - assert (words = [] \/ words <> []) as [->|Hne]
        by (destruct words; [left; reflexivity | right; discriminate]).
      + cbn [genrandomid_words] in Hid. rewrite Hget in Hid.
        rewrite random_choice_empty in Hid. discriminate Hid.
      + rewrite (genrandomid_words_loaded _ words st st1 Hget Hne) in Hid.
        remember (map _ (seq 0 (S n))) as ids eqn:Eids in Hid.
        injection Hid as <- _.
        apply clean_ok. rewrite all_allowed_join. apply forallb_forall.
        intros w Hw. apply clean_ok, Hwords. subst ids.
        apply in_map_iff in Hw as (k & <- & _).
        apply random_choice_nonempty, Hne. }
  split; [exact Hclean|].
  rewrite hash_codename_run by exact Hclean. cbn [fst]. eauto.
Qed.

(** X19. [display_id] returns an adjective, a space and a noun of the
    object, each the one its draw points at; it raises [IndexError]
    exactly when the object has no adjective or no noun. *)
Theorem display_id_spec :
  (adjectives self <> [] -> nouns self <> [] ->
   let adjective :=
     nth (pick (draws 0) (length (adjectives self))) (adjectives self) "" in
   let noun := nth (pick (draws 1) (length (nouns self))) (nouns self) "" in
   display_id self draws = Picked (adjective ++ " " ++ noun) /\
   In adjective (adjectives self) /\ In noun (nouns self)) /\
  (display_id self draws = IndexError <->
   adjectives self = [] \/ nouns self = []).
Proof.
  unfold display_id. split.
  - intros Ha Hn. cbn zeta.
    destruct (random_choice_nonempty (draws 0) _ Ha) as [-> Hina].
    destruct (random_choice_nonempty (draws 1) _ Hn) as [-> Hinn].
    auto.
  - destruct (adjectives self) as [|a adjs] eqn:Ea.
    + rewrite random_choice_empty. split; auto.
    + destruct (random_choice_nonempty (draws 0) (a :: adjs)) as [-> _];
        [discriminate|].
      destruct (nouns self) as [|n ns] eqn:En.
      * rewrite random_choice_empty. split; auto.
      * destruct (random_choice_nonempty (draws 1) (n :: ns)) as [-> _];
          [discriminate|].
        split; [discriminate | intros [|]; discriminate].
Qed.

Lemma in_string_app (c : ascii) (a b : string) :
  In c (list_ascii_of_string (a ++ b)) <->
  In c (list_ascii_of_string a) \/ In c (list_ascii_of_string b).
Proof.
  induction a as [|x a IH].
  - rewrite string_app_nil_l. cbn. tauto.
  - rewrite string_app_cons. cbn [list_ascii_of_string In]. rewrite IH.
    tauto.
Qed.

(** X20. The display name of an object that [__init__] has built is one
    line: its nouns and adjectives were split at the line breaks, so
    neither they nor the name drawn from them hold a line feed, a
    carriage return or another line break of [splitlines]. *)
Theorem display_id_one_line (params : ScryptParams)
    (id_pepper gpg_pepper root wordlist nouns_file adjectives_file
     gpg_key_dir : string) (st st' : State G) (id : string) (c : ascii) :
  __init__ params id_pepper gpg_pepper root wordlist nouns_file
           adjectives_file gpg_key_dir st = (Ok self, st') ->
  display_id self draws = Picked id ->
  In c (list_ascii_of_string id) ->
  is_linebreak c = false /\ c <> ascii_of_nat 13.
Proof.
  intros Hinit Hid Hc. unfold display_id in Hid.
  destruct (random_choice (draws 0) (adjectives self)) as [a|] eqn:Ea;
    [|discriminate].
  destruct (random_choice (draws 1) (nouns self)) as [n|] eqn:En;
    [|discriminate].
  injection Hid as <-.
  change (String.concat " " [a; n]) with (a ++ " " ++ n) in Hc.
  apply nth_error_In in Ea, En.
  rewrite !in_string_app in Hc. destruct Hc as [Hc|[Hc|Hc]].
  - exact (init_word_chars params id_pepper gpg_pepper root wordlist
             nouns_file adjectives_file gpg_key_dir st st' self a c Hinit
             (or_intror Ea) Hc).
  - destruct Hc as [<-|[]]. split; [reflexivity | discriminate].
  - exact (init_word_chars params id_pepper gpg_pepper root wordlist
             nouns_file adjectives_file gpg_key_dir st st' self n c Hinit
             (or_introl En) Hc).
Qed.
End RandomIdentifiers.

(** *** Fingerprints without their spaces *)

Lemma remove_spaces_idempotent (s : string) :
  remove_spaces (remove_spaces s) = remove_spaces s.
Proof.
  induction s as [|c s IH]; [reflexivity|]. cbn [remove_spaces].
  destruct (Ascii.eqb c " ") eqn:E; [exact IH|].
  cbn [remove_spaces]. rewrite E, IH. reflexivity.
Qed.

(** X21. Fingerprints that have lost their spaces already are as good as
    the originals: [encrypt] does the same with both. *)
Theorem encrypt_normalised_fingerprints {G : Type} `{!GnuPG G}
    (plaintext : Plaintext) (fprs : list string) (output : option string)
    (st : State G) :
  encrypt plaintext (FprList (map remove_spaces fprs)) output st =
  encrypt plaintext (FprList fprs) output st.
Proof.
  unfold encrypt. cbn [as_list]. rewrite map_map.
  rewrite (map_ext _ _ remove_spaces_idempotent). reflexivity.
Qed.

(** ** Further properties on the small deployment *)

(** The key of the source is the first, and only, match. *)
Lemma getkey_first_match_witness :
  fst (getkey "SOURCEID" (demo_state [demo_key])) = Ok (Some "AAAABBBB") /\
  exists before key after uid pre post,
    gpg_list_keys (st_keyring (demo_state [demo_key])) =
    (before ++ key :: after)%list /\
    fingerprint key = "AAAABBBB" /\
    In uid (uids key) /\ uid = pre ++ "SOURCEID" ++ post /\
    forall k u pre' post',
      In k before -> In u (uids k) -> u <> pre' ++ "SOURCEID" ++ post'.
Proof.
  assert (fst (getkey "SOURCEID" (demo_state [demo_key])) =
          Ok (Some "AAAABBBB")) as Hk by (vm_compute; reflexivity).
  split; [exact Hk|].
  exact (proj2 (proj2 (getkey_first_match "SOURCEID" (demo_state [demo_key])))
           "AAAABBBB" Hk).
Defined.

(** A part of the source's name finds the source's key. *)
Lemma getkey_part_of_name_witness :
  fst (getkey "SOURCEID" (demo_state [demo_key])) = Ok (Some "AAAABBBB") /\
  exists fpr', fst (getkey "SOURCE" (demo_state [demo_key])) = Ok (Some fpr').
Proof.
  assert (fst (getkey "SOURCEID" (demo_state [demo_key])) =
          Ok (Some "AAAABBBB")) as Hk by (vm_compute; reflexivity).
  split; [exact Hk|].
  exact (getkey_part_of_name "SOURCE" "" "ID" (demo_state [demo_key])
           "AAAABBBB" Hk).
Defined.

(** A key pair for a source. *)
Lemma genkeypair_spec_witness :
  clean "NAME" "" = Ok "NAME" /\ clean "codename" "" = Ok "codename" /\
  fst (genkeypair (H := demo_scrypt) demo_self "NAME" "codename"
                  (demo_state [])) = Ok "FPR NAME".
Proof.
  assert (clean "NAME" "" = Ok "NAME") as Hn by reflexivity.
  assert (clean "codename" "" = Ok "codename") as Hs by reflexivity.
  split; [exact Hn|]. split; [exact Hs|].
  exact (proj1 (proj2 (proj2 (genkeypair_spec (H := demo_scrypt) demo_self
                                "NAME" "codename" (demo_state [])))
                 Hn Hs)).
Defined.

Lemma genkeypair_decrypt_passphrase_witness :
  clean "NAME" "" = Ok "NAME" /\ clean "codename" "" = Ok "codename" /\
  exists passphrase,
    st_log (snd (genkeypair (H := demo_scrypt) demo_self "NAME" "codename"
                            (demo_state []))) =
    (st_log (demo_state []) ++
     [EvScrypt "codename" (scrypt_gpg_pepper demo_self)
               (scrypt_params demo_self);
      EvGenKey GPG_KEY_TYPE (gpg_key_length demo_self) passphrase "NAME"])%list
    /\
    st_log (snd (decrypt (H := demo_scrypt) demo_self "codename" "ciphertext"
                         (demo_state [demo_key]))) =
    (st_log (demo_state [demo_key]) ++
     [EvScrypt "codename" (scrypt_gpg_pepper demo_self)
               (scrypt_params demo_self);
      EvDecrypt "ciphertext" passphrase])%list.
Proof.
  assert (clean "NAME" "" = Ok "NAME") as Hn by reflexivity.
  assert (clean "codename" "" = Ok "codename") as Hs by reflexivity.
  split; [exact Hn|]. split; [exact Hs|].
  exact (genkeypair_decrypt_passphrase (H := demo_scrypt) demo_self "NAME"
           "codename" "ciphertext" (demo_state []) (demo_state [demo_key])
           Hn Hs).
Defined.

(** The identity hash of a codename. *)
Lemma hash_codename_output_witness :
  hash_codename (H := demo_scrypt) demo_self "codename" None (demo_state []) =
  (Ok (b32encode "A:codename"),
   add_event (EvScrypt "codename" "A" demo_params) (demo_state [])) /\
  clean (b32encode "A:codename") "" = Ok (b32encode "A:codename") /\
  String.length (b32encode "A:codename") = 16.
Proof.
  assert (hash_codename (H := demo_scrypt) demo_self "codename" None
            (demo_state []) =
          (Ok (b32encode "A:codename"),
           add_event (EvScrypt "codename" "A" demo_params) (demo_state [])))
    as Hh by (vm_compute; reflexivity).
  split; [exact Hh|].
  exact (hash_codename_output (H := demo_scrypt) demo_self "codename" None
           (demo_state []) _ (b32encode "A:codename") Hh).
Defined.

Lemma genkeypair_accepts_identity_hash_witness :
  hash_codename (H := demo_scrypt) demo_self "codename" None (demo_state []) =
  (Ok (b32encode "A:codename"),
   add_event (EvScrypt "codename" "A" demo_params) (demo_state [])) /\
  exists fpr,
    fst (genkeypair (H := demo_scrypt) demo_self (b32encode "A:codename")
                    "codename" (demo_state [])) = Ok fpr.
Proof.
  assert (hash_codename (H := demo_scrypt) demo_self "codename" None
            (demo_state []) =
          (Ok (b32encode "A:codename"),
           add_event (EvScrypt "codename" "A" demo_params) (demo_state [])))
    as Hh by (vm_compute; reflexivity).
  split; [exact Hh|].
  exact (genkeypair_accepts_identity_hash (H := demo_scrypt) demo_self
           "codename" (b32encode "A:codename") (demo_state []) _
           (demo_state []) Hh).
Defined.

(** A codename with brackets. *)
Lemma decrypt_raises_iff_witness :
  clean "[]" "" <> Ok "[]" /\
  decrypt (H := demo_scrypt) demo_self "[]" "ciphertext"
          (demo_state [demo_key]) =
  (Raise (CryptoException ("invalid input: " ++ "[]")),
   demo_state [demo_key]).
Proof.
  assert (clean "[]" "" <> Ok "[]") as Hs by (vm_compute; discriminate).
  split; [exact Hs|].
  exact (proj2 (decrypt_raises_iff (H := demo_scrypt) demo_self "[]"
                  "ciphertext" (demo_state [demo_key])) Hs).
Defined.

(** Two codenames under the identity pepper. *)
Lemma hash_codename_equal_iff_witness :
  clean "codename" "" = Ok "codename" /\ clean "another" "" = Ok "another" /\
  fst (hash_codename (H := demo_scrypt) demo_self "codename" None
                     (demo_state [])) <>
  fst (hash_codename (H := demo_scrypt) demo_self "another" None
                     (demo_state [])).
Proof.
  assert (clean "codename" "" = Ok "codename") as H1 by reflexivity.
  assert (clean "another" "" = Ok "another") as H2 by reflexivity.
  split; [exact H1|]. split; [exact H2|].
  intros E.
  apply (proj1 (hash_codename_equal_iff (H := demo_scrypt) demo_self
                  "codename" "another" None None (demo_state [])
                  (demo_state []) H1 H2)) in E.
  vm_compute in E. discriminate E.
Defined.

(** Construction on a machine without [srm]. *)
Lemma init_srm_probe_witness :
  "A" <> "B" /\ st_srm demo_state_without_srm = SrmNotInstalled /\
  __init__ demo_params "A" "B" "/sd" "/sd/wordlist" "/sd/nouns.txt"
           "/sd/adjectives.txt" "/keys" demo_state_without_srm =
  (Raise (OSError "srm"),
   add_event EvSrm
     (add_event (EvEnviron "SECUREDROP_ENV") demo_state_without_srm)).
Proof.
  assert ("A" <> "B") as Hne by discriminate.
  assert (st_srm demo_state_without_srm = SrmNotInstalled) as Hsrm
    by reflexivity.
  split; [exact Hne|]. split; [exact Hsrm|].
  exact (proj1 (init_srm_probe demo_params "A" "B" "/sd" "/sd/wordlist"
                  "/sd/nouns.txt" "/sd/adjectives.txt" "/keys"
                  demo_state_without_srm Hne) Hsrm).
Defined.

(** Keys of an object built outside the test environment. *)
Lemma genkeypair_key_length_witness :
  __init__ demo_params "A" "B" "/sd" "/sd/wordlist" "/sd/nouns.txt"
           "/sd/adjectives.txt" "/keys" (demo_state []) =
  (Ok demo_self,
   snd (__init__ demo_params "A" "B" "/sd" "/sd/wordlist" "/sd/nouns.txt"
                 "/sd/adjectives.txt" "/keys" (demo_state []))) /\
  clean "NAME" "" = Ok "NAME" /\ clean "codename" "" = Ok "codename" /\
  st_log (snd (genkeypair (H := demo_scrypt) demo_self "NAME" "codename"
                          (demo_state []))) =
  [EvScrypt "codename" "B" demo_params;
   EvGenKey "RSA" 4096 (b32encode "B:codename") "NAME"].
Proof.
  assert (__init__ demo_params "A" "B" "/sd" "/sd/wordlist" "/sd/nouns.txt"
            "/sd/adjectives.txt" "/keys" (demo_state []) =
          (Ok demo_self,
           snd (__init__ demo_params "A" "B" "/sd" "/sd/wordlist"
                  "/sd/nouns.txt" "/sd/adjectives.txt" "/keys"
                  (demo_state [])))) as Hinit by (vm_compute; reflexivity).
  assert (clean "NAME" "" = Ok "NAME") as Hn by reflexivity.
  assert (clean "codename" "" = Ok "codename") as Hs by reflexivity.
  split; [exact Hinit|]. split; [exact Hn|]. split; [exact Hs|].
  exact (genkeypair_key_length (H := demo_scrypt) demo_params "A" "B" "/sd"
           "/sd/wordlist" "/sd/nouns.txt" "/sd/adjectives.txt" "/keys"
           (demo_state []) _ (demo_state []) demo_self "NAME" "codename"
           Hinit Hn Hs).
Defined.

(** Loading the English word list leaves the French entry alone. *)
Lemma get_wordlist_keeps_cache_witness :
  "fr" <> "en" /\
  st_language2words (snd (get_wordlist demo_self "en" (demo_state [])))
    !! "fr" =
  st_language2words (demo_state []) !! "fr".
Proof.
  assert ("fr" <> "en") as Hne by discriminate.
  split; [exact Hne|].
  exact (proj1 (get_wordlist_keeps_cache demo_self "en" (demo_state []))
           "fr" Hne).
Defined.

(** A default word list that is not there. *)
Lemma get_wordlist_unreadable_witness :
  st_language2words (demo_state []) !! "en" = None /\
  st_files (demo_state []) !! word_list demo_lost = None /\
  fst (get_wordlist demo_lost "en" (demo_state [])) =
  Raise (IOError (word_list demo_lost)) /\
  st_language2words (snd (get_wordlist demo_lost "en" (demo_state []))) =
  st_language2words (demo_state []).
Proof.
  assert (st_language2words (demo_state []) !! "en" = None) as Hc
    by reflexivity.
  assert (st_files (demo_state []) !! word_list demo_lost = None) as Hd
    by (vm_compute; reflexivity).
  split; [exact Hc|]. split; [exact Hd|].
  exact (get_wordlist_unreadable demo_lost "en" (demo_state []) Hc Hd
           (or_introl eq_refl)).
Defined.

(** Two words from the English word list. *)
Lemma genrandomid_spec_witness :
  0 < 2 /\
  get_wordlist demo_self "en" (demo_state []) =
  (Ok ["apple"; "berry"], snd (get_wordlist demo_self "en" (demo_state []))) /\
  ["apple"; "berry"] <> [] /\
  exists ids,
    genrandomid demo_self demo_draws (Some 2%Z) None (demo_state []) =
    (Picked (String.concat " " ids),
     snd (get_wordlist demo_self "en" (demo_state []))) /\
    length ids = 2 /\
    (forall k, k < 2 ->
       nth_error ids k =
       Some (nth (pick (demo_draws k) (length ["apple"; "berry"]))
                 ["apple"; "berry"] "")) /\
    (forall w, In w ids -> In w ["apple"; "berry"]).
Proof.
  assert (0 < 2) as Hn by lia.
  assert (get_wordlist demo_self "en" (demo_state []) =
          (Ok ["apple"; "berry"],
           snd (get_wordlist demo_self "en" (demo_state [])))) as Hget
    by (vm_compute; reflexivity).
  assert (["apple"; "berry"] <> []) as Hne by discriminate.
  split; [exact Hn|]. split; [exact Hget|]. split; [exact Hne|].
  exact (genrandomid_spec demo_self demo_draws (Some 2%Z) None
           ["apple"; "berry"] (demo_state []) _ Hn Hget Hne).
Defined.

Lemma genrandomid_no_words_witness :
  (0 <= 0)%Z /\
  genrandomid demo_lost demo_draws (Some 0%Z) None (demo_state []) =
  (Picked "", demo_state []).
Proof.
  assert (0 <= 0)%Z as Hn by lia.
  split; [exact Hn|].
  exact (genrandomid_no_words demo_lost demo_draws 0 None (demo_state []) Hn).
Defined.

Lemma genrandomid_failure_witness :
  0 < 8 /\
  get_wordlist demo_lost "en" (demo_state []) =
  (Raise (IOError "/sd/lost"),
   snd (get_wordlist demo_lost "en" (demo_state []))) /\
  genrandomid demo_lost demo_draws None None (demo_state []) =
  (ModuleError (IOError "/sd/lost"),
   snd (get_wordlist demo_lost "en" (demo_state []))).
Proof.
  assert (0 < 8) as Hn by lia.
  assert (get_wordlist demo_lost "en" (demo_state []) =
          (Raise (IOError "/sd/lost"),
           snd (get_wordlist demo_lost "en" (demo_state [])))) as Hget
    by (vm_compute; reflexivity).
  split; [exact Hn|]. split; [exact Hget|].
  exact (proj1 (genrandomid_failure demo_lost demo_draws None None
                  (demo_state []) _ Hn) _ Hget).
Defined.

Lemma genrandomid_accepted_witness :
  get_wordlist demo_self "en" (demo_state []) =
  (Ok ["apple"; "berry"], snd (get_wordlist demo_self "en" (demo_state []))) /\
  (forall w, In w ["apple"; "berry"] -> clean w "" = Ok w) /\
  genrandomid demo_self demo_draws (Some 2%Z) None (demo_state []) =
  (Picked "berry berry", snd (get_wordlist demo_self "en" (demo_state []))) /\
  clean "berry berry" "" = Ok "berry berry" /\
  exists h,
    fst (hash_codename (H := demo_scrypt) demo_self "berry berry" None
           (snd (get_wordlist demo_self "en" (demo_state [])))) = Ok h.
Proof.
  assert (get_wordlist demo_self "en" (demo_state []) =
          (Ok ["apple"; "berry"],
           snd (get_wordlist demo_self "en" (demo_state [])))) as Hget
    by (vm_compute; reflexivity).
  assert (forall w, In w ["apple"; "berry"] -> clean w "" = Ok w) as Hw
    by (intros w [<-|[<-|[]]]; reflexivity).
  assert (genrandomid demo_self demo_draws (Some 2%Z) None (demo_state []) =
          (Picked "berry berry",
           snd (get_wordlist demo_self "en" (demo_state [])))) as Hid
    by (vm_compute; reflexivity).
  split; [exact Hget|]. split; [exact Hw|]. split; [exact Hid|].
  exact (genrandomid_accepted demo_self demo_draws (H := demo_scrypt)
           (Some 2%Z) None ["apple"; "berry"] "berry berry" (demo_state [])
           _ _ Hget Hw Hid).
Defined.

(** The display name of the small deployment. *)
Lemma display_id_spec_witness :
  adjectives demo_self <> [] /\ nouns demo_self <> [] /\
  display_id demo_self demo_draws = Picked "quiet otter".
Proof.
  assert (adjectives demo_self <> []) as Ha by discriminate.
  assert (nouns demo_self <> []) as Hn by discriminate.
  split; [exact Ha|]. split; [exact Hn|].
  exact (proj1 (proj1 (display_id_spec demo_self demo_draws) Ha Hn)).
Defined.

Lemma display_id_one_line_witness :
  __init__ demo_params "A" "B" "/sd" "/sd/wordlist" "/sd/nouns.txt"
           "/sd/adjectives.txt" "/keys" (demo_state []) =
  (Ok demo_self,
   snd (__init__ demo_params "A" "B" "/sd" "/sd/wordlist" "/sd/nouns.txt"
                 "/sd/adjectives.txt" "/keys" (demo_state []))) /\
  display_id demo_self demo_draws = Picked "quiet otter" /\
  In "q"%char (list_ascii_of_string "quiet otter") /\
  is_linebreak "q" = false /\ "q"%char <> ascii_of_nat 13.
Proof.
  assert (__init__ demo_params "A" "B" "/sd" "/sd/wordlist" "/sd/nouns.txt"
            "/sd/adjectives.txt" "/keys" (demo_state []) =
          (Ok demo_self,
           snd (__init__ demo_params "A" "B" "/sd" "/sd/wordlist"
                  "/sd/nouns.txt" "/sd/adjectives.txt" "/keys"
                  (demo_state [])))) as Hinit by (vm_compute; reflexivity).
  assert (display_id demo_self demo_draws = Picked "quiet otter") as Hid
    by reflexivity.
  assert (In "q"%char (list_ascii_of_string "quiet otter")) as Hc
    by (left; reflexivity).
  split; [exact Hinit|]. split; [exact Hid|]. split; [exact Hc|].
  exact (display_id_one_line demo_self demo_draws demo_params "A" "B" "/sd"
           "/sd/wordlist" "/sd/nouns.txt" "/sd/adjectives.txt" "/keys"
           (demo_state []) _ "quiet otter" "q"%char Hinit Hid Hc).
Defined.
